(** * eslint-plugin-jsonv: the language adapter of [index.mjs]

    A shallow embedding of the [jsonvLanguage] object: [parse],
    [createSourceCode] with its [getText] and [getLines] methods, and
    [validateLanguageOptions].

    The parser itself, [parseWithOptions] of [@cldmv/jsonv/parser], is an
    imported dependency.  It is a section variable here: every statement
    below holds for whatever that function does. *)

From Stdlib Require Import ZArith NArith List String Ascii Bool Lia DecimalString.
From Stdlib Require Import Floats.SpecFloat.
From Equations Require Import Equations.
Import ListNotations.

Local Open Scope string_scope.
Local Open Scope list_scope.
Local Open Scope nat_scope.

(** ** JavaScript values *)

Module Js.

(** A JavaScript string is a sequence of UTF-16 code units. *)
Definition code_unit := N.
Definition JsString := list code_unit.

(** ASCII literals of the source, as code units. *)
Definition str (s : string) : JsString :=
  map N_of_ascii (list_ascii_of_string s).

(** A JavaScript number is an IEEE 754 binary64 value. *)
Definition number := spec_float.

Definition prec : Z := 53.
Definition emax : Z := 1024.

(** The number whose value is the integer [z] (exact up to 2^53): the
    integer literals of the source, and [length]. *)
Definition num (z : Z) : number := binary_normalize prec emax z 0 false.

#[local] Set Warnings "-register-all".

(** Values: primitives, arrays, and objects with data properties in
    insertion order.  Accessor properties and proxies are not modelled: reading
    a property of an object never runs code.  An object is given by the
    properties that can be read off it, the inherited ones included: an Error
    object comes with its [name] and its [message].  BigInt and Symbol
    values are left out. *)
Inductive JsValue : Type :=
| JsUndefined
| JsNull
| JsBool (b : bool)
| JsNum (n : number)
| JsStr (s : JsString)
| JsArr (elems : list JsValue)
| JsObj (props : list (string * JsValue)).

(** A function call either returns or throws a value. *)
Inductive Completion (A : Type) : Type :=
| Normal (a : A)
| Throw (e : JsValue).
Arguments Normal {A} a.
Arguments Throw {A} e.

Definition bind {A B} (c : Completion A) (k : A -> Completion B) : Completion B :=
  match c with
  | Normal a => k a
  | Throw e => Throw e
  end.

(** [try { body } catch (error) { handler }] *)
Definition tryCatch {A} (body : Completion A) (handler : JsValue -> Completion A)
  : Completion A :=
  match body with
  | Normal a => Normal a
  | Throw e => handler e
  end.

Module Notations.
Notation "x <- c ;; k" := (bind c (fun x => k))
  (at level 61, c at next level, right associativity).
End Notations.
Import Notations.

(** ToBoolean, the test behind [||], [&&] and [if]. *)
Definition isZeroOrNaN (n : number) : bool :=
  match n with
  | S754_zero _ | S754_nan => true
  | _ => false
  end.

Definition ToBoolean (v : JsValue) : bool :=
  match v with
  | JsUndefined | JsNull => false
  | JsBool b => b
  | JsNum n => negb (isZeroOrNaN n)
  | JsStr s => match s with [] => false | _ => true end
  | JsArr _ | JsObj _ => true
  end.

(** [a || b] on values already evaluated ([b] is a literal wherever the
    source uses it). *)
Definition JsOr (a b : JsValue) : JsValue := if ToBoolean a then a else b.

Definition isUndefined (v : JsValue) : bool :=
  match v with JsUndefined => true | _ => false end.

Definition isNullish (v : JsValue) : bool :=
  match v with JsUndefined | JsNull => true | _ => false end.

(** Property lookup in an object literal's property list. *)
Fixpoint lookup (k : string) (props : list (string * JsValue)) : option JsValue :=
  match props with
  | [] => None
  | (k', v) :: rest => if String.eqb k k' then Some v else lookup k rest
  end.

(** An array index as a property key: ["0"], ["1"], ... in canonical form. *)
Definition indexOfKey (k : string) : option nat :=
  match NilEmpty.uint_of_string k with
  | Some u =>
      let n := Nat.of_uint u in
      if String.eqb (NilZero.string_of_uint (Nat.to_uint n)) k then Some n else None
  | None => None
  end.

(** The properties that can be read off a value.  For an object they are
    the listed ones (see [JsValue]).  Of what strings, arrays and the other
    primitives inherit from their prototypes nothing is listed: none of it
    has a key that this program reads ([body], [languageOptions], [year],
    [strictBigInt], [message], [line], [column], [ast], [range], [loc]). *)
Definition getOwn (v : JsValue) (k : string) : option JsValue :=
  match v with
  | JsObj props => lookup k props
  | JsArr elems =>
      if String.eqb k "length" then Some (JsNum (num (Z.of_nat (List.length elems))))
      else match indexOfKey k with
           | Some i => nth_error elems i
           | None => None
           end
  | JsStr s =>
      if String.eqb k "length" then Some (JsNum (num (Z.of_nat (List.length s))))
      else match indexOfKey k with
           | Some i => option_map (fun c => JsStr [c]) (nth_error s i)
           | None => None
           end
  | _ => None
  end.

(** The TypeError raised by a property read on [undefined] or [null]. *)
Definition TypeError (k : string) : JsValue :=
  JsObj [("name", JsStr (str "TypeError"));
         ("message", JsStr (str (String.append "Cannot read properties of undefined or null, reading " k)))].

(** What [v.k] evaluates to when [v] is neither [undefined] nor [null]. *)
Definition prop (v : JsValue) (k : string) : JsValue :=
  match getOwn v k with
  | Some x => x
  | None => JsUndefined
  end.

(** [v.k] *)
Definition Get (v : JsValue) (k : string) : Completion JsValue :=
  if isNullish v then Throw (TypeError k) else Normal (prop v k).

(** *** Numbers *)

Definition sub : number -> number -> number := SFsub prec emax.
Definition add : number -> number -> number := SFadd prec emax.

Definition isNaN (n : number) : bool :=
  match n with S754_nan => true | _ => false end.
Definition isPosZero (n : number) : bool :=
  match n with S754_zero false => true | _ => false end.
Definition isNegZero (n : number) : bool :=
  match n with S754_zero true => true | _ => false end.

(** [Math.max]: start from -Infinity, NaN is contagious, +0 beats -0. *)
Fixpoint maxLoop (highest : number) (coerced : list number) : number :=
  match coerced with
  | [] => highest
  | x :: rest =>
      if isNaN x then S754_nan
      else
        let highest := if isPosZero x && isNegZero highest then x else highest in
        let highest := if SFltb highest x then x else highest in
        maxLoop highest rest
  end.
Definition Math_max (args : list number) : number :=
  maxLoop (S754_infinity true) args.

(** [Math.min]: start from +Infinity, NaN is contagious, -0 beats +0. *)
Fixpoint minLoop (lowest : number) (coerced : list number) : number :=
  match coerced with
  | [] => lowest
  | x :: rest =>
      if isNaN x then S754_nan
      else
        let lowest := if isNegZero x && isPosZero lowest then x else lowest in
        let lowest := if SFltb x lowest then x else lowest in
        minLoop lowest rest
  end.
Definition Math_min (args : list number) : number :=
  minLoop (S754_infinity false) args.

(** ToIntegerOrInfinity: NaN and the zeros give 0, the infinities stay, any
    other number is truncated towards zero. *)
Inductive IntegerOrInfinity : Type :=
| NegInfinity
| Integer (z : Z)
| PosInfinity.

Definition ToIntegerOrInfinity (n : number) : IntegerOrInfinity :=
  match n with
  | S754_nan | S754_zero _ => Integer 0
  | S754_infinity true => NegInfinity
  | S754_infinity false => PosInfinity
  | S754_finite sign m e =>
      let magnitude := Z.shiftl (Zpos m) e in
      Integer (if sign then (- magnitude)%Z else magnitude)
  end.

(** *** Strings *)

(** The code units of [s] from index [from] up to, not including, [to]. *)
Definition substring (s : JsString) (from to : nat) : JsString :=
  firstn (to - from) (skipn from s).

(** A slice bound made absolute: negative bounds count from the end, and
    the result is kept within [0, len]. *)
Definition relativeIndex (len : Z) (i : IntegerOrInfinity) : Z :=
  match i with
  | NegInfinity => 0%Z
  | Integer z => if (z <? 0)%Z then Z.max (len + z) 0 else Z.min z len
  | PosInfinity => len
  end.

(** [s.slice(start, end)] with both bounds given as numbers. *)
Definition slice (s : JsString) (start end_ : number) : JsString :=
  let len := Z.of_nat (List.length s) in
  let from := relativeIndex len (ToIntegerOrInfinity start) in
  let to := relativeIndex len (ToIntegerOrInfinity end_) in
  if (to <=? from)%Z then [] else substring s (Z.to_nat from) (Z.to_nat to).

(** A regular expression as [split] uses it: [m s q] is the length of the
    match that starts exactly at index [q] of [s], if the pattern matches
    there. *)
Definition Matcher := JsString -> nat -> option nat.

Definition inspect {A} (a : A) : {b | a = b} := exist _ a eq_refl.
#[local] Notation "x 'eqn:' h" := (exist _ x h) (only parsing, at level 20).

(** The loop of [s.split(regexp)]: [p] is the start of the piece being
    collected, [q] the index where a match is tried next, [A] the pieces so
    far.  A match that ends where the piece starts is skipped.  The limit
    of 2^32 - 1 pieces is left out: no engine has strings that long. *)
Equations? splitLoop (m : Matcher) (s : JsString) (p q : nat) (A : list JsString)
  : list JsString
  by wf (2 * (List.length s - q) + (if p =? q then 0 else 1)) lt :=
splitLoop m s p q A with lt_dec q (List.length s) := {
  | right _ => A ++ [substring s p (List.length s)]
  | left Hq with inspect (m s q) := {
    | None eqn:Hm => splitLoop m s p (q + 1) A
    | Some k eqn:Hm with inspect (Nat.min (q + k) (List.length s) =? p) := {
      | true eqn:He => splitLoop m s p (q + 1) A
      | false eqn:He =>
          splitLoop m s (Nat.min (q + k) (List.length s)) (Nat.min (q + k) (List.length s))
            (A ++ [substring s p q]) } } }.
Proof.
  all: repeat match goal with
         | |- context [?a =? ?b] => destruct (Nat.eqb_spec a b)
         end;
    try apply Nat.eqb_neq in He; try lia.
Qed.

(** [s.split(regexp)]; the empty string is a case of its own. *)
Definition split (m : Matcher) (s : JsString) : list JsString :=
  if List.length s =? 0
  then match m s 0 with Some _ => [] | None => [s] end
  else splitLoop m s 0 0 [].

(** *** Conversions *)

(** A primitive value, as ToPrimitive gives it. *)
Inductive Primitive : Type :=
| PUndefined
| PNull
| PBool (b : bool)
| PNum (n : number)
| PStr (s : JsString).

Definition isLeadingSurrogate (c : code_unit) : bool :=
  (0xD800 <=? c)%N && (c <=? 0xDBFF)%N.
Definition isTrailingSurrogate (c : code_unit) : bool :=
  (0xDC00 <=? c)%N && (c <=? 0xDFFF)%N.

(** The first code point of a string, as a string of one or two code
    units, and what follows it. *)
Definition firstCodePoint (s : JsString) : option (JsString * JsString) :=
  match s with
  | [] => None
  | c :: rest =>
      match rest with
      | d :: rest' =>
          if isLeadingSurrogate c && isTrailingSurrogate d
          then Some ([c; d], rest')
          else Some ([c], rest)
      | [] => Some ([c], rest)
      end
  end.

(** The TypeError raised by destructuring a value that cannot be iterated. *)
Definition NotIterable : JsValue :=
  JsObj [("name", JsStr (str "TypeError"));
         ("message", JsStr (str "value is not iterable"))].

(** [const [first, second] = v]: an array gives its elements, a string its
    code points, and [undefined] stands for what is missing; no other value
    can be iterated. *)
Definition destructurePair (v : JsValue) : Completion (JsValue * JsValue) :=
  match v with
  | JsArr elems => Normal (nth 0 elems JsUndefined, nth 1 elems JsUndefined)
  | JsStr s =>
      match firstCodePoint s with
      | None => Normal (JsUndefined, JsUndefined)
      | Some (first, rest) =>
          Normal (JsStr first,
                  match firstCodePoint rest with
                  | Some (second, _) => JsStr second
                  | None => JsUndefined
                  end)
      end
  | _ => Throw NotIterable
  end.

Section Conversions.

(** Taken from the runtime: the number that a string denotes, the string
    that a number prints as, and the primitive that an array or an object
    converts to through its [valueOf] and [toString], which may throw. *)
Variable StringToNumber : JsString -> number.
Variable NumberToString : number -> JsString.
Variable ObjectToPrimitive : JsValue -> Completion Primitive.

Definition ToPrimitive (v : JsValue) : Completion Primitive :=
  match v with
  | JsUndefined => Normal PUndefined
  | JsNull => Normal PNull
  | JsBool b => Normal (PBool b)
  | JsNum n => Normal (PNum n)
  | JsStr s => Normal (PStr s)
  | JsArr _ | JsObj _ => ObjectToPrimitive v
  end.

(** ToNumber and ToString of a primitive. *)
Definition PrimitiveToNumber (p : Primitive) : number :=
  match p with
  | PUndefined => S754_nan
  | PNull => num 0
  | PBool true => num 1
  | PBool false => num 0
  | PNum n => n
  | PStr s => StringToNumber s
  end.

Definition PrimitiveToString (p : Primitive) : JsString :=
  match p with
  | PUndefined => str "undefined"
  | PNull => str "null"
  | PBool true => str "true"
  | PBool false => str "false"
  | PNum n => NumberToString n
  | PStr s => s
  end.

Definition ToNumber (v : JsValue) : Completion number :=
  p <- ToPrimitive v ;;
  Normal (PrimitiveToNumber p).

(** [a - b]: both operands become numbers, the left one first. *)
Definition Minus (a b : JsValue) : Completion number :=
  x <- ToNumber a ;;
  y <- ToNumber b ;;
  Normal (sub x y).

(** [a + b]: both operands become primitives, the left one first; if either
    is a string the two are concatenated as strings, otherwise they are
    added as numbers. *)
Definition Plus (a b : JsValue) : Completion Primitive :=
  pa <- ToPrimitive a ;;
  pb <- ToPrimitive b ;;
  match pa, pb with
  | PStr _, _ | _, PStr _ =>
      Normal (PStr (PrimitiveToString pa ++ PrimitiveToString pb))
  | _, _ => Normal (PNum (add (PrimitiveToNumber pa) (PrimitiveToNumber pb)))
  end.

End Conversions.

End Js.
Import Js Js.Notations.

(** ** [jsonvLanguage] *)

Module jsonvLanguage.

(** [fileType], [lineStart], [columnStart], [nodeTypeKey] *)
Definition fileType : JsString := str "text".
Definition lineStart : Z := 1.
Definition columnStart : Z := 1.
Definition nodeTypeKey : JsString := str "type".

(** [defaultParserOptions] *)
Definition defaultParserOptions : JsValue :=
  JsObj [("year", JsNum (num 2025));
         ("strictBigInt", JsBool false);
         ("mode", JsStr (str "jsonv"))].

(** [context.languageOptions || {}] *)
Definition optionsOf (languageOptions : JsValue) : JsValue :=
  JsOr languageOptions (JsObj []).

(** The object literal handed to [parseWithOptions], built from the
    [year] and [strictBigInt] already read off [options]. *)
Definition parserOptions (year strictBigInt : JsValue) : JsValue :=
  JsObj [("year", JsOr year (JsNum (num 2025)));
         ("strictBigInt", if negb (isUndefined strictBigInt) then strictBigInt else JsBool false);
         ("mode", JsStr (str "jsonv"));
         ("preserveComments", JsBool true);
         ("tolerant", JsBool false)].

(** The options object that a call with this [context] hands to the
    parser, when [context] is an object. *)
Definition passedOptions (context : JsValue) : JsValue :=
  let options := optionsOf (prop context "languageOptions") in
  parserOptions (prop options "year") (prop options "strictBigInt").

(** The minimal ESTree-compatible AST of a successful parse. *)
Definition programNode : JsValue :=
  JsObj [("type", JsStr (str "Program"));
         ("body", JsArr []);
         ("sourceType", JsStr (str "module"));
         ("comments", JsArr []);
         ("tokens", JsArr [])].

Definition okResult (result : JsValue) : JsValue :=
  JsObj [("ok", JsBool true);
         ("ast", programNode);
         ("jsonvValue", result)].

Definition errorEntry (message line column : JsValue) : JsValue :=
  JsObj [("message", message); ("line", line); ("column", column)].

Definition errorResult (message line column : JsValue) : JsValue :=
  JsObj [("ok", JsBool false);
         ("errors", JsArr [errorEntry message line column])].

(** The [catch (error)] block of [parse]. *)
Definition parseCatch (error : JsValue) : Completion JsValue :=
  message <- Get error "message" ;;
  line <- Get error "line" ;;
  column <- Get error "column" ;;
  Normal (errorResult message
            (JsOr line (JsNum (num 1)))
            (JsOr column (JsNum (num 1)))).

Section Parse.

(** [parseWithOptions(text, options)] of the parser package. *)
Variable parseWithOptions : JsValue -> JsValue -> Completion JsValue.

(** The [try] block of [parse]. *)
Definition parseTry (text options : JsValue) : Completion JsValue :=
  year <- Get options "year" ;;
  strictBigInt <- Get options "strictBigInt" ;;
  result <- parseWithOptions text (parserOptions year strictBigInt) ;;
  Normal (okResult result).

(** [parse(file, context)] *)
Definition parse (file context : JsValue) : Completion JsValue :=
  text <- Get file "body" ;;
  languageOptions <- Get context "languageOptions" ;;
  let options := optionsOf languageOptions in
  tryCatch (parseTry text options) parseCatch.

End Parse.

(** [validateLanguageOptions(___languageOptions)]: an empty body (the object
    literal defines it twice, both times empty). *)
Definition validateLanguageOptions (___languageOptions : JsValue) : Completion JsValue :=
  Normal JsUndefined.

End jsonvLanguage.
Import jsonvLanguage.


(** ** The source code object *)

Module SourceCode.

Definition CR : code_unit := 13%N.
Definition LF : code_unit := 10%N.
Definition LS : code_unit := 0x2028%N.
Definition PS : code_unit := 0x2029%N.

(** The character class of the pattern: \r, \n, \u2028, \u2029. *)
Definition isLineTerminator (c : code_unit) : bool :=
  (c =? CR)%N || (c =? LF)%N || (c =? LS)%N || (c =? PS)%N.

(** The pattern  /\r\n|[\r\n\u2028\u2029]/g : the alternative \r\n is tried
    first, then the character class. *)
Definition lineBreakPattern : Matcher := fun s q =>
  match nth_error s q with
  | Some c =>
      if (c =? CR)%N
         && match nth_error s (q + 1) with Some d => (d =? LF)%N | None => false end
      then Some 2
      else if isLineTerminator c then Some 1 else None
  | None => None
  end.

(** What [createSourceCode] returns; the methods below close over [text]. *)
Record SourceCode : Type := {
  text : JsString;
  ast : JsValue;
  lines : list JsString;
  hasBOM : bool
}.

Section Create.

(** [String(v)] for numbers and for objects, taken from the runtime. *)
Variable NumberToString : number -> JsString.
Variable ObjectToString : JsValue -> Completion JsString.

Definition String_ (v : JsValue) : Completion JsString :=
  match v with
  | JsUndefined => Normal (str "undefined")
  | JsNull => Normal (str "null")
  | JsBool true => Normal (str "true")
  | JsBool false => Normal (str "false")
  | JsNum n => Normal (NumberToString n)
  | JsStr s => Normal s
  | JsArr _ | JsObj _ => ObjectToString v
  end.

(** [createSourceCode(file, parseResult, context)] *)
Definition createSourceCode (file parseResult context : JsValue)
  : Completion SourceCode :=
  body <- Get file "body" ;;
  text <- match body with
          | JsStr s => Normal s
          | _ => String_ (JsOr body (JsStr []))
          end ;;
  ast <- Get parseResult "ast" ;;
  Normal {| text := text;
            ast := ast;
            lines := split lineBreakPattern text;
            hasBOM := match text with
                      | c :: _ => (c =? 0xfeff)%N
                      | [] => false
                      end |}.

End Create.


Section Text.

Variable StringToNumber : JsString -> number.
Variable NumberToString : number -> JsString.
Variable ObjectToPrimitive : JsValue -> Completion Primitive.

(** [getText(node, beforeCount, afterCount)]; an argument that is not given
    is [undefined].  [node.range] is read for the test and again for the
    destructuring, with the same outcome. *)
Definition getText (sc : SourceCode) (node beforeCount afterCount : JsValue)
  : Completion JsString :=
  if ToBoolean node then
    range <- Get node "range" ;;
    if ToBoolean range then
      pair <- destructurePair range ;;
      let (start, end_) := pair in
      lower <- Minus StringToNumber ObjectToPrimitive
                 start (JsOr beforeCount (JsNum (num 0))) ;;
      upper <- Plus StringToNumber NumberToString ObjectToPrimitive
                 end_ (JsOr afterCount (JsNum (num 0))) ;;
      Normal (slice (text sc)
                (Math_max [num 0; lower])
                (Math_min [num (Z.of_nat (List.length (text sc)));
                           PrimitiveToNumber StringToNumber upper]))
    else Normal (text sc)
  else Normal (text sc).

End Text.

(** [getLines()] *)
Definition getLines (sc : SourceCode) : list JsString :=
  split lineBreakPattern (text sc).

(** The location [getLoc] falls back on. *)
Definition defaultLoc : JsValue :=
  JsObj [("start", JsObj [("line", JsNum (num 1)); ("column", JsNum (num 0))]);
         ("end", JsObj [("line", JsNum (num 1)); ("column", JsNum (num 0))])].

(** The range [getRange] falls back on. *)
Definition defaultRange : JsValue := JsArr [JsNum (num 0); JsNum (num 0)].

(** [getLoc(node)] *)
Definition getLoc (node : JsValue) : Completion JsValue :=
  loc <- Get node "loc" ;;
  Normal (JsOr loc defaultLoc).

(** [getRange(node)] *)
Definition getRange (node : JsValue) : Completion JsValue :=
  range <- Get node "range" ;;
  Normal (JsOr range defaultRange).

(** One step of a traversal: [{kind, target, phase, args}]. *)
Definition visitStep (target : JsValue) (phase : Z) : JsValue :=
  JsObj [("kind", JsNum (num 1));
         ("target", target);
         ("phase", JsNum (num phase));
         ("args", JsArr [target])].

(** [traverse()]: the steps its iterator yields, in order. *)
Definition traverse (sc : SourceCode) : list JsValue :=
  [visitStep (ast sc) 1; visitStep (ast sc) 2].

End SourceCode.
Import SourceCode.


(** ** Specification-side notions *)

Module Spec.

(** A number that can be a 1-based line or column: a positive integer. *)
Definition isPositiveInteger (n : number) : bool :=
  match n with
  | S754_finite false m e =>
      (0 <=? e)%Z || (Z.land (Zpos m) (Z.ones (- e)) =? 0)%Z
  | _ => false
  end.

Definition isOneBased (v : JsValue) : bool :=
  match v with
  | JsNum n => isPositiveInteger n
  | _ => false
  end.

(** A parser whose answer may depend on some ambient state [World]. *)
Definition StatefulParser (World : Type) : Type :=
  World -> JsValue -> JsValue -> Completion JsValue.

(** Such a parser is deterministic when the state does not show in its
    answer. *)
Definition Deterministic {World : Type} (P : StatefulParser World) : Prop :=
  forall (w1 w2 : World) (text options : JsValue),
    P w1 text options = P w2 text options.

(** The five line-break forms. *)
Inductive LineBreak : JsString -> Prop :=
| break_LF : LineBreak [LF]
| break_CRLF : LineBreak [CR; LF]
| break_CR : LineBreak [CR]
| break_LS : LineBreak [LS]
| break_PS : LineBreak [PS].

(** A line holds none of the four line-terminator code units. *)
Definition NoLineTerminator (l : JsString) : Prop :=
  Forall (fun c => isLineTerminator c = false) l.

(** [SplitOnLineBreaks t ls]: the text [t] is the lines [ls] with one line
    break between each two neighbours, every occurrence of a line break is
    used, and a \r that is followed by \n is never a break by itself. *)
Inductive SplitOnLineBreaks : JsString -> list JsString -> Prop :=
| split_last (l : JsString) :
    NoLineTerminator l ->
    SplitOnLineBreaks l [l]
| split_break (l b rest : JsString) (ls : list JsString) :
    NoLineTerminator l ->
    LineBreak b ->
    (b = [CR] -> forall rest', rest <> LF :: rest') ->
    SplitOnLineBreaks rest ls ->
    SplitOnLineBreaks (l ++ b ++ rest) (l :: ls).

(** The same splitting as one scan from left to right; [piece] is the line
    read so far. *)
Fixpoint scanLines (piece : JsString) (s : JsString) : list JsString :=
  match s with
  | [] => [piece]
  | c :: rest =>
      if isLineTerminator c then
        piece ::
          (if (c =? CR)%N then
             match rest with
             | d :: rest' => if (d =? LF)%N then scanLines [] rest' else scanLines [] rest
             | [] => scanLines [] rest
             end
           else scanLines [] rest)
      else scanLines (piece ++ [c]) rest
  end.

(** A code unit that is not a line terminator. *)
Definition notTerminator (c : code_unit) : bool := negb (isLineTerminator c).

(** [ls.join(sep)] *)
Fixpoint joinWith (sep : JsString) (ls : list JsString) : JsString :=
  match ls with
  | [] => []
  | [l] => l
  | l :: rest => l ++ sep ++ joinWith sep rest
  end.

(** A count that [count || 0] turns into 0: absent, a zero, or NaN. *)
Definition noCount (count : option number) : bool :=
  match count with
  | Some n => isZeroOrNaN n
  | None => true
  end.


(** Where [slice] ends for the end bound [h] on a text of [len] code units:
    a negative bound counts from the end. *)
Definition sliceEnd (len h : Z) : Z :=
  if (h <? 0)%Z then Z.max (len + h) 0 else Z.min h len.

(** A context that holds nothing but these language options. *)
Definition contextWith (languageOptions : JsValue) : JsValue :=
  JsObj [("languageOptions", languageOptions)].

End Spec.
Import Spec.

(** ** Sample inputs *)

Module Sample.

Definition file : JsValue := JsObj [("body", JsStr (str "{ a: }"))].

Definition fileWithPath : JsValue :=
  JsObj [("path", JsStr (str "config.jsonv")); ("body", JsStr (str "{ a: }"))].

Definition noOptions : JsValue := JsObj [("languageOptions", JsObj [])].

Definition year2020 : JsValue :=
  JsObj [("languageOptions", JsObj [("year", JsNum (num 2020))])].

Definition year2020WithCwd : JsValue :=
  JsObj [("cwd", JsStr (str "/tmp"));
         ("languageOptions", JsObj [("year", JsNum (num 2020))])].

Definition illTyped : JsValue :=
  JsObj [("languageOptions",
          JsObj [("year", JsStr (str "latest"));
                 ("strictBigInt", JsNum (num 7));
                 ("mode", JsBool true)])].

(** The text "0123456789" as a source code object. *)
Definition digits : SourceCode :=
  {| text := str "0123456789"; ast := programNode;
     lines := [str "0123456789"]; hasBOM := false |}.

(** A node with the range [[a, b]]. *)
Definition rangeNode (a b : Z) : JsValue :=
  JsObj [("type", JsStr (str "Property"));
         ("range", JsArr [JsNum (num a); JsNum (num b)])].

(** Conversions for inputs that need none: every string is NaN, every
    number prints as the empty string, every object converts to
    [undefined]. *)
Definition noNumber : JsString -> number := fun _ => S754_nan.
Definition noString : number -> JsString := fun _ => [].
Definition noPrimitive : JsValue -> Completion Primitive := fun _ => Normal PUndefined.

(** A parser that throws [null]. *)
Definition throwsNull : JsValue -> JsValue -> Completion JsValue :=
  fun _ _ => Throw JsNull.

(** A parser that throws a string. *)
Definition throwsString : JsValue -> JsValue -> Completion JsValue :=
  fun _ _ => Throw (JsStr (str "boom")).

(** A parser that throws an error with a line and no column. *)
Definition throwsAtLine3 : JsValue -> JsValue -> Completion JsValue :=
  fun _ _ => Throw (JsObj [("message", JsStr (str "Unexpected token"));
                           ("line", JsNum (num 3))]).

(** A parser that returns the options it was given. *)
Definition echoOptions : JsValue -> JsValue -> Completion JsValue :=
  fun _ options => Normal options.

(** A parser that returns its text, whatever the ambient state. *)
Definition echoText : StatefulParser nat :=
  fun _ text _ => Normal text.

End Sample.

(** ** Properties of [parse] *)

Section ParseFacts.

Variable parseWithOptions : JsValue -> JsValue -> Completion JsValue.

Lemma Get_defined (v : JsValue) (k : string) :
  isNullish v = false -> Get v k = Normal (prop v k).
Proof. intros H. unfold Get. rewrite H. reflexivity. Qed.

Lemma truthy_not_nullish (v : JsValue) :
  ToBoolean v = true -> isNullish v = false.
Proof. destruct v; simpl; intros H; congruence. Qed.

Lemma optionsOf_not_nullish (languageOptions : JsValue) :
  isNullish (optionsOf languageOptions) = false.
Proof.
  unfold optionsOf, JsOr.
  destruct (ToBoolean languageOptions) eqn:E.
  - now apply truthy_not_nullish.
  - reflexivity.
Qed.

(** On objects, [parse] is one call of the parser inside [try]/[catch]. *)
Lemma parse_calls_parser (file context : JsValue) :
  isNullish file = false ->
  isNullish context = false ->
  parse parseWithOptions file context =
  tryCatch
    (result <- parseWithOptions (prop file "body") (passedOptions context) ;;
     Normal (okResult result))
    parseCatch.
Proof.
  intros Hf Hc. unfold parse, parseTry, passedOptions.
  rewrite (Get_defined file "body" Hf), (Get_defined context "languageOptions" Hc).
  cbn [bind].
  rewrite !(Get_defined _ _ (optionsOf_not_nullish _)).
  reflexivity.
Qed.

Lemma parse_of_returned (file context result : JsValue) :
  isNullish file = false ->
  isNullish context = false ->
  parseWithOptions (prop file "body") (passedOptions context) = Normal result ->
  parse parseWithOptions file context = Normal (okResult result).
Proof.
  intros Hf Hc HP. rewrite (parse_calls_parser _ _ Hf Hc), HP. reflexivity.
Qed.

Lemma parse_of_thrown (file context error : JsValue) :
  isNullish file = false ->
  isNullish context = false ->
  parseWithOptions (prop file "body") (passedOptions context) = Throw error ->
  isNullish error = false ->
  parse parseWithOptions file context =
  Normal (errorResult (prop error "message")
            (JsOr (prop error "line") (JsNum (num 1)))
            (JsOr (prop error "column") (JsNum (num 1)))).
Proof.
  intros Hf Hc HP He. rewrite (parse_calls_parser _ _ Hf Hc), HP.
  cbn [bind tryCatch]. unfold parseCatch.
  rewrite !(Get_defined _ _ He). reflexivity.
Qed.

End ParseFacts.

(** C1, as amended: for every file object and context object, [parse] returns
    a result value whenever the parser returns, or throws any value other
    than [null] and [undefined] (an Error object or not): a returned value
    gives the [ok: true] result, a thrown value is caught and converted into
    [{ok: false, errors: [...]}]. *)
Theorem parse_returns_value
    (parseWithOptions : JsValue -> JsValue -> Completion JsValue)
    (file context : JsValue) :
  isNullish file = false ->
  isNullish context = false ->
  (forall error,
      parseWithOptions (prop file "body") (passedOptions context) = Throw error ->
      isNullish error = false) ->
  exists r,
    parse parseWithOptions file context = Normal r /\
    match parseWithOptions (prop file "body") (passedOptions context) with
    | Normal result => r = okResult result
    | Throw error =>
        r = errorResult (prop error "message")
              (JsOr (prop error "line") (JsNum (num 1)))
              (JsOr (prop error "column") (JsNum (num 1)))
    end.
Proof.
  intros Hf Hc Hthrown.
  destruct (parseWithOptions (prop file "body") (passedOptions context))
    as [result | error] eqn:HP.
  - exists (okResult result). split; [| reflexivity].
    now apply parse_of_returned.
  - eexists. split; [| reflexivity].
    apply parse_of_thrown; auto.
Qed.

Lemma parse_returns_value_witness :
  exists r, parse Sample.throwsString Sample.file Sample.noOptions = Normal r /\
            r = errorResult JsUndefined (JsNum (num 1)) (JsNum (num 1)).
Proof.
  destruct (parse_returns_value Sample.throwsString Sample.file Sample.noOptions)
    as [r [Hr Hshape]].
  - reflexivity.
  - reflexivity.
  - intros error H. injection H as <-. reflexivity.
  - exists r. split; [exact Hr | exact Hshape].
Defined.

(** C1, as stated, fails: when the parser throws [null], the [catch] block
    reads [error.message] of [null], and that TypeError leaves [parse]. *)
Lemma parse_thrown_null_escapes :
  parse Sample.throwsNull Sample.file Sample.noOptions = Throw (TypeError "message")
  /\ forall r, parse Sample.throwsNull Sample.file Sample.noOptions <> Normal r.
Proof.
  split.
  - reflexivity.
  - intros r H. discriminate H.
Qed.

(** C2, as amended: when the parser throws a value other than [null] and
    [undefined], [parse] returns [{ok: false, errors: [e]}] with [e] made of
    exactly [message], [line] and [column]; [message] is the thrown value's;
    [line] is the thrown value's [line] when that is truthy and 1, the
    language's [lineStart], otherwise, and likewise [column]: so a position
    that the error lacks is reported as 1, and one that is 1-based is
    reported as it is. *)
Theorem parse_failure_shape
    (parseWithOptions : JsValue -> JsValue -> Completion JsValue)
    (file context error : JsValue) :
  isNullish file = false ->
  isNullish context = false ->
  parseWithOptions (prop file "body") (passedOptions context) = Throw error ->
  isNullish error = false ->
  exists line column,
    parse parseWithOptions file context =
      Normal (JsObj [("ok", JsBool false);
                     ("errors",
                      JsArr [JsObj [("message", prop error "message");
                                    ("line", line);
                                    ("column", column)]])])
    /\ line = (if ToBoolean (prop error "line") then prop error "line"
               else JsNum (num lineStart))
    /\ column = (if ToBoolean (prop error "column") then prop error "column"
                 else JsNum (num columnStart))
    /\ (getOwn error "line" = None -> line = JsNum (num lineStart))
    /\ (getOwn error "column" = None -> column = JsNum (num columnStart))
    /\ (isOneBased (prop error "line") = true ->
        line = prop error "line" /\ isOneBased line = true)
    /\ (isOneBased (prop error "column") = true ->
        column = prop error "column" /\ isOneBased column = true).
Proof.
  intros Hf Hc HP He.
  assert (Hone : forall v, isOneBased v = true -> ToBoolean v = true).
  { intros v Hv. destruct v as [ | | b | n | s | l | o]; try discriminate Hv.
    destruct n as [z | i | | sg m e]; try discriminate Hv. reflexivity. }
  assert (Hnone : forall k, getOwn error k = None ->
                            ToBoolean (prop error k) = false).
  { intros k Hk. unfold prop. now rewrite Hk. }
  exists (JsOr (prop error "line") (JsNum (num 1))),
         (JsOr (prop error "column") (JsNum (num 1))).
  split; [now apply parse_of_thrown |].
  unfold JsOr. split; [reflexivity |]. split; [reflexivity |].
  split; [| split; [| split]].
  - intros Hk. now rewrite (Hnone _ Hk).
  - intros Hk. now rewrite (Hnone _ Hk).
  - intros Hone_line. rewrite (Hone _ Hone_line). now split.
  - intros Hone_column. rewrite (Hone _ Hone_column). now split.
Qed.

Lemma parse_failure_shape_witness :
  parse Sample.throwsAtLine3 Sample.file Sample.noOptions =
    Normal (JsObj [("ok", JsBool false);
                   ("errors",
                    JsArr [JsObj [("message", JsStr (str "Unexpected token"));
                                  ("line", JsNum (num 3));
                                  ("column", JsNum (num 1))]])]).
Proof.
  destruct (parse_failure_shape Sample.throwsAtLine3 Sample.file Sample.noOptions
              (JsObj [("message", JsStr (str "Unexpected token"));
                      ("line", JsNum (num 3))]))
    as [line [column [Hr [_ [_ [_ [Hc [Hl _]]]]]]]].
  - reflexivity.
  - reflexivity.
  - reflexivity.
  - reflexivity.
  - destruct (Hl eq_refl) as [Hline _].
    rewrite Hr, Hline, (Hc eq_refl). reflexivity.
Defined.

(** C2, as stated, fails: an error that has a [column], namely 0, is not
    reported with its own [column] but with 1; an error whose [line] is -3
    is reported with that line, which is not 1-based; and for a thrown
    [undefined] no result is returned at all. *)
Lemma parse_failure_not_as_stated :
  let columnZero := JsObj [("message", JsStr (str "Unexpected token"));
                           ("line", JsNum (num 2));
                           ("column", JsNum (num 0))] in
  let lineNegative := JsObj [("message", JsStr (str "Unexpected token"));
                             ("line", JsNum (num (-3)));
                             ("column", JsNum (num 1))] in
  (getOwn columnZero "column" = Some (JsNum (num 0))
   /\ parse (fun _ _ => Throw columnZero) Sample.file Sample.noOptions
      = Normal (errorResult (JsStr (str "Unexpected token"))
                  (JsNum (num 2)) (JsNum (num 1)))
   /\ JsNum (num 1) <> JsNum (num 0))
  /\ (parse (fun _ _ => Throw lineNegative) Sample.file Sample.noOptions
      = Normal (errorResult (JsStr (str "Unexpected token"))
                  (JsNum (num (-3))) (JsNum (num 1)))
      /\ isOneBased (JsNum (num (-3))) = false)
  /\ parse (fun _ _ => Throw JsUndefined) Sample.file Sample.noOptions
     = Throw (TypeError "message").
Proof.
  cbv zeta. repeat split; try reflexivity. discriminate.
Qed.

(** C3, as amended: for each option that the language options omit, the
    parser is given the adapter's default for it: [year] 2025,
    [strictBigInt] false, [mode] "jsonv", [preserveComments] true and
    [tolerant] false. *)
Theorem parse_option_defaults
    (parseWithOptions : JsValue -> JsValue -> Completion JsValue)
    (file context : JsValue) :
  isNullish file = false ->
  isNullish context = false ->
  let options := optionsOf (prop context "languageOptions") in
  let omitted (k : string) := getOwn options k = None in
  exists year strictBigInt mode preserveComments tolerant,
    parse parseWithOptions file context =
      tryCatch
        (result <- parseWithOptions (prop file "body")
                     (JsObj [("year", year);
                             ("strictBigInt", strictBigInt);
                             ("mode", mode);
                             ("preserveComments", preserveComments);
                             ("tolerant", tolerant)]) ;;
         Normal (okResult result))
        parseCatch
    /\ (omitted "year" -> year = JsNum (num 2025))
    /\ (omitted "strictBigInt" -> strictBigInt = JsBool false)
    /\ (omitted "mode" -> mode = JsStr (str "jsonv"))
    /\ (omitted "preserveComments" -> preserveComments = JsBool true)
    /\ (omitted "tolerant" -> tolerant = JsBool false).
Proof.
  intros Hf Hc options omitted.
  exists (JsOr (prop options "year") (JsNum (num 2025))),
         (if negb (isUndefined (prop options "strictBigInt"))
          then prop options "strictBigInt" else JsBool false),
         (JsStr (str "jsonv")), (JsBool true), (JsBool false).
  split; [now apply parse_calls_parser |].
  repeat split; try reflexivity.
  - intros Hnone. unfold prop. rewrite Hnone. reflexivity.
  - intros Hnone. unfold prop. rewrite Hnone. reflexivity.
Qed.

Lemma parse_option_defaults_witness :
  parse Sample.echoOptions Sample.file Sample.noOptions =
    Normal (okResult (JsObj [("year", JsNum (num 2025));
                             ("strictBigInt", JsBool false);
                             ("mode", JsStr (str "jsonv"));
                             ("preserveComments", JsBool true);
                             ("tolerant", JsBool false)])).
Proof.
  destruct (parse_option_defaults Sample.echoOptions Sample.file Sample.noOptions)
    as [year [strictBigInt [mode [preserveComments [tolerant
         [Hr [Hy [Hs [Hm [Hp Ht]]]]]]]]]].
  - reflexivity.
  - reflexivity.
  - rewrite Hr, (Hy eq_refl), (Hs eq_refl), (Hm eq_refl), (Hp eq_refl), (Ht eq_refl).
    reflexivity.
Defined.

(** C3, as stated, fails on [preserveComments]: with every option omitted
    the parser is still given [preserveComments: true]. *)
Lemma parse_passes_preserveComments_true :
  exists passed,
    parse Sample.echoOptions Sample.file Sample.noOptions = Normal (okResult passed)
    /\ getOwn passed "preserveComments" = Some (JsBool true)
    /\ getOwn passed "preserveComments" <> Some (JsBool false).
Proof.
  eexists. split; [reflexivity |]. split; [reflexivity | discriminate].
Qed.

(** C4: with a deterministic parser, two calls of [parse] whose files have
    the same [body] and whose contexts have the same [languageOptions]
    give the same result, whatever else the files, the contexts and the
    ambient state hold. *)
Theorem parse_deterministic
    (World : Type) (parser : StatefulParser World)
    (w1 w2 : World) (file1 file2 context1 context2 : JsValue) :
  Deterministic parser ->
  Get file1 "body" = Get file2 "body" ->
  Get context1 "languageOptions" = Get context2 "languageOptions" ->
  parse (parser w1) file1 context1 = parse (parser w2) file2 context2.
Proof.
  intros Hdet Hbody Hoptions. unfold parse.
  rewrite Hbody, Hoptions.
  destruct (Get file2 "body") as [text | e]; [| reflexivity]. cbn [bind].
  destruct (Get context2 "languageOptions") as [languageOptions | e]; [| reflexivity].
  cbn [bind]. unfold parseTry.
  destruct (Get (optionsOf languageOptions) "year") as [year | e]; [| reflexivity].
  cbn [bind].
  destruct (Get (optionsOf languageOptions) "strictBigInt") as [strict | e];
    [| reflexivity].
  cbn [bind]. rewrite (Hdet w1 w2). reflexivity.
Qed.

Lemma parse_deterministic_witness :
  parse (Sample.echoText 0) Sample.file Sample.year2020 =
  parse (Sample.echoText 1) Sample.fileWithPath Sample.year2020WithCwd.
Proof.
  apply (parse_deterministic nat Sample.echoText 0 1).
  - intros w1 w2 text options. reflexivity.
  - reflexivity.
  - reflexivity.
Defined.

(** C8: whenever the parser returns, the [ast] of the result is the same
    Program node, with empty [body], [comments] and [tokens] and
    [sourceType] "module"; what the parser returned is the [jsonvValue]
    field and appears nowhere else. *)
Theorem parse_success_ast_fixed
    (parseWithOptions : JsValue -> JsValue -> Completion JsValue)
    (file context result : JsValue) :
  isNullish file = false ->
  isNullish context = false ->
  parseWithOptions (prop file "body") (passedOptions context) = Normal result ->
  parse parseWithOptions file context =
    Normal (JsObj [("ok", JsBool true);
                   ("ast", JsObj [("type", JsStr (str "Program"));
                                  ("body", JsArr []);
                                  ("sourceType", JsStr (str "module"));
                                  ("comments", JsArr []);
                                  ("tokens", JsArr [])]);
                   ("jsonvValue", result)]).
Proof.
  intros Hf Hc HP. now apply parse_of_returned.
Qed.

Lemma parse_success_ast_fixed_witness :
  exists r,
    parse (Sample.echoText 0) Sample.file Sample.noOptions = Normal r
    /\ getOwn r "ast" = Some programNode
    /\ getOwn r "jsonvValue" = Some (JsStr (str "{ a: }")).
Proof.
  eexists. split.
  - apply (parse_success_ast_fixed (Sample.echoText 0) Sample.file Sample.noOptions
             (JsStr (str "{ a: }"))); reflexivity.
  - split; reflexivity.
Defined.

(** C10: [validateLanguageOptions] returns [undefined] for every argument
    and never throws; and [parse] hands the parser the [year] (when truthy)
    and the [strictBigInt] (when not [undefined]) that the options hold, of
    any type, without rejecting them itself. *)
Theorem validateLanguageOptions_accepts_all :
  (forall languageOptions : JsValue,
      validateLanguageOptions languageOptions = Normal JsUndefined)
  /\ (forall (parseWithOptions : JsValue -> JsValue -> Completion JsValue)
             (file context year strictBigInt : JsValue),
         isNullish file = false ->
         isNullish context = false ->
         getOwn (optionsOf (prop context "languageOptions")) "year" = Some year ->
         ToBoolean year = true ->
         getOwn (optionsOf (prop context "languageOptions")) "strictBigInt"
           = Some strictBigInt ->
         isUndefined strictBigInt = false ->
         parse parseWithOptions file context
         = tryCatch
             (result <- parseWithOptions (prop file "body")
                          (JsObj [("year", year);
                                  ("strictBigInt", strictBigInt);
                                  ("mode", JsStr (str "jsonv"));
                                  ("preserveComments", JsBool true);
                                  ("tolerant", JsBool false)]) ;;
              Normal (okResult result))
             parseCatch).
Proof.
  split.
  - intros languageOptions. reflexivity.
  - intros P file context year strictBigInt Hf Hc Hyear Hy Hstrict Hs.
    rewrite (parse_calls_parser P file context Hf Hc).
    unfold passedOptions, parserOptions.
    set (options := optionsOf (prop context "languageOptions")) in *.
    assert (Ey : prop options "year" = year)
      by (unfold prop; now rewrite Hyear).
    assert (Es : prop options "strictBigInt" = strictBigInt)
      by (unfold prop; now rewrite Hstrict).
    cbv zeta. rewrite Ey, Es. unfold JsOr. rewrite Hy, Hs. reflexivity.
Qed.

Lemma validateLanguageOptions_accepts_all_witness :
  validateLanguageOptions Sample.illTyped = Normal JsUndefined
  /\ parse Sample.echoOptions Sample.file Sample.illTyped =
     Normal (okResult (JsObj [("year", JsStr (str "latest"));
                              ("strictBigInt", JsNum (num 7));
                              ("mode", JsStr (str "jsonv"));
                              ("preserveComments", JsBool true);
                              ("tolerant", JsBool false)])).
Proof.
  destruct validateLanguageOptions_accepts_all as [Hv Hp].
  split.
  - apply Hv.
  - rewrite (Hp Sample.echoOptions Sample.file Sample.illTyped
               (JsStr (str "latest")) (JsNum (num 7)));
      reflexivity.
Defined.

(** ** Properties of the source code object *)

Lemma skipn_nth_error (s : JsString) (q : nat) (c : code_unit) :
  nth_error s q = Some c -> skipn q s = c :: skipn (q + 1) s.
Proof.
  revert q. induction s as [| a s IH]; intros [| q] H; simpl in *; try discriminate.
  - now injection H as ->.
  - now apply IH.
Qed.

Lemma substring_empty (s : JsString) (q : nat) : substring s q q = [].
Proof. unfold substring. now rewrite Nat.sub_diag. Qed.

Lemma substring_snoc (s : JsString) (p q : nat) (c : code_unit) :
  p <= q -> nth_error s q = Some c ->
  substring s p (q + 1) = substring s p q ++ [c].
Proof.
  intros Hpq Hc. unfold substring.
  replace (q + 1 - p) with (S (q - p)) by lia.
  assert (Hn : nth_error (skipn p s) (q - p) = Some c).
  { rewrite nth_error_skipn. now replace (p + (q - p)) with q by lia. }
  generalize dependent (skipn p s). generalize (q - p). clear.
  intros n l. revert n. induction l as [| a l IH]; intros [| n] H; simpl in *;
    try discriminate.
  - now injection H as ->.
  - f_equal. now apply IH.
Qed.

Lemma lineBreakPattern_None (s : JsString) (q : nat) :
  q < List.length s ->
  lineBreakPattern s q = None ->
  exists c, nth_error s q = Some c /\ isLineTerminator c = false.
Proof.
  intros Hq. unfold lineBreakPattern.
  destruct (nth_error s q) as [c |] eqn:E.
  - intros H. exists c. split; [reflexivity |].
    destruct ((c =? CR)%N && _); [discriminate |].
    destruct (isLineTerminator c); [discriminate | reflexivity].
  - apply nth_error_None in E. lia.
Qed.

Lemma lineBreakPattern_Some (s : JsString) (q k : nat) :
  lineBreakPattern s q = Some k ->
  exists c, nth_error s q = Some c /\ isLineTerminator c = true /\
    ((k = 2 /\ c = CR /\ nth_error s (q + 1) = Some LF)
     \/ (k = 1 /\ (c <> CR \/ nth_error s (q + 1) <> Some LF))).
Proof.
  unfold lineBreakPattern.
  destruct (nth_error s q) as [c |] eqn:E; [| discriminate].
  intros H. exists c. split; [reflexivity |].
  destruct (N.eqb_spec c CR) as [-> | Hc]; cbn [andb] in H.
  - split; [reflexivity |].
    destruct (nth_error s (q + 1)) as [d |] eqn:E1.
    + destruct (N.eqb_spec d LF) as [-> | Hd].
      * injection H as <-. now left.
      * cbn in H. injection H as <-. right. split; [reflexivity |]. right. congruence.
    + cbn in H. injection H as <-. right. split; [reflexivity |]. right. congruence.
  - destruct (isLineTerminator c); [| discriminate].
    injection H as <-. split; [reflexivity |]. right. split; [reflexivity |]. now left.
Qed.


Lemma splitLoop_scanLines (m : Matcher) (s : JsString) (p q : nat) (A : list JsString) :
  m = lineBreakPattern ->
  p <= q -> q <= List.length s ->
  splitLoop m s p q A = A ++ scanLines (substring s p q) (skipn q s).
Proof.
  funelim (splitLoop m s p q A); intros Hdef Hpq Hlen; subst m.
  - (* the loop is over *)
    assert (q = List.length s) as -> by lia.
    now rewrite skipn_all.
  - (* no match at q *)
    destruct (lineBreakPattern_None s q Hq Hm) as [c [Hc Hnl]].
    rewrite H by (auto; lia).
    rewrite (skipn_nth_error s q c Hc), (substring_snoc s p q c Hpq Hc).
    cbn [scanLines]. now rewrite Hnl.
  - (* a match ending at p: impossible here *)
    pose proof (proj1 (Nat.eqb_eq _ _) He) as Hend.
    destruct (lineBreakPattern_Some s q k Hm) as [c [Hc [_ [[Hk _] | [Hk _]]]]]; lia.
  - (* a match: the piece is complete *)
    destruct (lineBreakPattern_Some s q k Hm) as [c [Hc [Hterm Hk]]].
    rewrite (skipn_nth_error s q c Hc). cbn [scanLines]. rewrite Hterm.
    destruct Hk as [[-> [-> Hnext]] | [-> Hnot]].
    + assert (Hq2 : q + 2 <= List.length s).
      { assert (q + 1 < List.length s); [| lia].
        apply nth_error_Some. congruence. }
      rewrite Nat.min_l in * by lia.
      rewrite H by (auto; lia).
      rewrite substring_empty, <- app_assoc. cbn [app].
      rewrite (skipn_nth_error s (q + 1) LF Hnext).
      replace (q + 1 + 1) with (q + 2) by lia.
      reflexivity.
    + rewrite Nat.min_l in * by lia.
      rewrite H by (auto; lia).
      rewrite substring_empty, <- app_assoc. cbn [app].
      destruct (N.eqb_spec c CR) as [-> | Hc'].
      * destruct (skipn (q + 1) s) as [| d rest] eqn:Es; [reflexivity |].
        destruct (N.eqb_spec d LF) as [-> | Hd]; [| reflexivity].
        exfalso. destruct Hnot as [Hn | Hn]; [congruence |]. apply Hn.
        assert (Hlt : q + 1 < List.length s).
        { destruct (Nat.lt_ge_cases (q + 1) (List.length s)) as [Hlt | Hge]; [exact Hlt |].
          rewrite skipn_all2 in Es by lia. discriminate. }
        destruct (nth_error s (q + 1)) as [d |] eqn:En.
        -- rewrite (skipn_nth_error s (q + 1) d En) in Es. congruence.
        -- apply nth_error_None in En. lia.
      * reflexivity.
Qed.

Lemma split_scanLines (s : JsString) :
  split lineBreakPattern s = scanLines [] s.
Proof.
  unfold split. destruct s as [| c s]; [reflexivity |].
  cbn [List.length Nat.eqb].
  rewrite (splitLoop_scanLines lineBreakPattern (c :: s) 0 0 []); auto with arith.
Qed.

Lemma LineBreak_head (b : JsString) :
  LineBreak b -> exists c tl, b = c :: tl /\ isLineTerminator c = true.
Proof. intros []; eexists _, _; split; reflexivity. Qed.

(** The scan cuts the text into lines that split it on line breaks. *)
Lemma scanLines_splits (s piece : JsString) :
  NoLineTerminator piece ->
  SplitOnLineBreaks (piece ++ s) (scanLines piece s).
Proof.
  remember (List.length s) as n eqn:Hn.
  revert s piece Hn.
  induction n as [n IH] using lt_wf_ind. intros s piece Hn Hpiece.
  destruct s as [| c rest].
  - rewrite app_nil_r. now constructor.
  - cbn [scanLines]. destruct (isLineTerminator c) eqn:Hc.
    + destruct (N.eqb_spec c CR) as [-> | Hcr].
      * destruct rest as [| d rest'].
        -- apply (split_break piece [CR] [] [[]]); auto using break_CR.
           ++ intros _ rest'. discriminate.
           ++ constructor. constructor.
        -- destruct (N.eqb_spec d LF) as [-> | Hd].
           ++ apply (split_break piece [CR; LF] rest'); auto using break_CRLF.
              ** discriminate.
              ** apply (IH (List.length rest')) with (piece := []); subst; simpl; auto.
                 constructor.
           ++ apply (split_break piece [CR] (d :: rest')); auto using break_CR.
              ** intros _ rest'' H. congruence.
              ** apply (IH (List.length (d :: rest'))) with (piece := []);
                   subst; simpl; auto. constructor.
      * assert (Hb : LineBreak [c]).
        { unfold isLineTerminator in Hc.
          destruct (N.eqb_spec c CR); [contradiction |].
          destruct (N.eqb_spec c LF) as [-> | ?]; [constructor |].
          destruct (N.eqb_spec c LS) as [-> | ?]; [constructor |].
          destruct (N.eqb_spec c PS) as [-> | ?]; [constructor | discriminate]. }
        apply (split_break piece [c] rest); auto.
        -- intros H. congruence.
        -- apply (IH (List.length rest)) with (piece := []); subst; simpl; auto.
           constructor.
    + replace (piece ++ c :: rest) with ((piece ++ [c]) ++ rest)
        by (rewrite <- app_assoc; reflexivity).
      apply (IH (List.length rest)); subst; simpl; auto.
      apply Forall_app. split; auto.
Qed.

Lemma scanLines_line (l s piece : JsString) :
  NoLineTerminator l ->
  scanLines piece (l ++ s) = scanLines (piece ++ l) s.
Proof.
  intros Hl. revert piece. induction Hl as [| c l Hc Hl IH]; intros piece.
  - now rewrite app_nil_r.
  - cbn [app scanLines]. rewrite Hc, IH, <- app_assoc. reflexivity.
Qed.

Lemma scanLines_break (b rest piece : JsString) :
  LineBreak b ->
  (b = [CR] -> forall rest', rest <> LF :: rest') ->
  scanLines piece (b ++ rest) = piece :: scanLines [] rest.
Proof.
  intros Hb Hcr. destruct Hb; cbn; try reflexivity.
  destruct rest as [| d rest']; [reflexivity |].
  destruct (N.eqb_spec d LF) as [-> | Hd]; [| reflexivity].
  exfalso. now apply (Hcr eq_refl rest').
Qed.

(** Splitting on line breaks has one outcome only. *)
Lemma SplitOnLineBreaks_scanLines (t : JsString) (ls : list JsString) :
  SplitOnLineBreaks t ls -> ls = scanLines [] t.
Proof.
  induction 1 as [l Hl | l b rest ls Hl Hb Hcr Hrest IH].
  - rewrite <- (app_nil_r l) at 2. rewrite scanLines_line by assumption.
    reflexivity.
  - rewrite scanLines_line by assumption. cbn [app].
    rewrite scanLines_break by assumption. now rewrite IH.
Qed.

(** C5: for every text, the [lines] of the source code object and the
    result of its [getLines] are the text split on the five line-break
    forms \n, \r\n, \r, U+2028 and U+2029, each occurrence being one break
    and \r\n being one break, not two; there is exactly one such split. *)
Theorem lines_split_on_line_breaks
    (NumberToString : number -> JsString)
    (ObjectToString : JsValue -> Completion JsString)
    (file parseResult context : JsValue) (t : JsString) :
  Get file "body" = Normal (JsStr t) ->
  isNullish parseResult = false ->
  exists sc,
    createSourceCode NumberToString ObjectToString file parseResult context = Normal sc
    /\ text sc = t
    /\ getLines sc = lines sc
    /\ SplitOnLineBreaks t (lines sc)
    /\ (forall ls, SplitOnLineBreaks t ls -> ls = lines sc)
    /\ split lineBreakPattern (str "a" ++ [CR; LF] ++ str "b") = [str "a"; str "b"].
Proof.
  intros Hbody Hresult. unfold createSourceCode.
  rewrite Hbody. cbn [bind]. rewrite (Get_defined parseResult "ast" Hresult).
  cbn [bind]. eexists. split; [reflexivity |]. cbn [text lines getLines].
  split; [reflexivity |]. split; [reflexivity |].
  rewrite split_scanLines. split; [| split].
  - apply (scanLines_splits t []). constructor.
  - apply SplitOnLineBreaks_scanLines.
  - reflexivity.
Qed.

Lemma lines_split_on_line_breaks_witness :
  exists sc,
    createSourceCode (fun _ => []) (fun _ => Normal [])
      (JsObj [("body", JsStr (str "a" ++ [LF; CR; LF; LS] ++ str "b" ++ [CR; PS]))])
      (JsObj [("ok", JsBool true); ("ast", programNode)])
      JsUndefined
    = Normal sc
    /\ lines sc = [str "a"; []; []; str "b"; []; []]
    /\ getLines sc = [str "a"; []; []; str "b"; []; []].
Proof.
  destruct (lines_split_on_line_breaks (fun _ => []) (fun _ => Normal [])
              (JsObj [("body", JsStr (str "a" ++ [LF; CR; LF; LS] ++ str "b" ++ [CR; PS]))])
              (JsObj [("ok", JsBool true); ("ast", programNode)])
              JsUndefined
              (str "a" ++ [LF; CR; LF; LS] ++ str "b" ++ [CR; PS]))
    as [sc [Hsc [Ht [Hg [Hs [Hu _]]]]]].
  - reflexivity.
  - reflexivity.
  - exists sc. split; [exact Hsc |].
    injection Hsc as <-. split; reflexivity.
Defined.




Lemma SFcompare_antisym (a b : number) :
  SFcompare b a = option_map CompOpp (SFcompare a b).
Proof.
  destruct a as [sa | sa | | sa ma ea], b as [sb | sb | | sb mb eb];
    cbn; try reflexivity;
    try (destruct sa; reflexivity); try (destruct sb; reflexivity);
    try (destruct sa, sb; reflexivity).
  destruct sa, sb; cbn; try reflexivity.
  - rewrite (Z.compare_antisym eb ea).
    destruct (eb ?= ea)%Z; cbn; try reflexivity.
    rewrite !Pos.compare_cont_spec. cbn.
    rewrite (Pos.compare_antisym mb ma). now destruct (mb ?= ma)%positive.
  - rewrite (Z.compare_antisym eb ea).
    destruct (eb ?= ea)%Z; cbn; try reflexivity.
    rewrite !Pos.compare_cont_spec. cbn.
    rewrite (Pos.compare_antisym mb ma). now destruct (mb ?= ma)%positive.
Qed.

Lemma SFltb_asym (a b : number) : SFltb a b = true -> SFltb b a = false.
Proof.
  unfold SFltb. rewrite (SFcompare_antisym a b).
  destruct (SFcompare a b) as [[| |] |]; cbn; congruence.
Qed.

Lemma SFltb_irrefl (a : number) : SFltb a a = false.
Proof.
  destruct (SFltb a a) eqn:E; [| reflexivity].
  pose proof (SFltb_asym a a E). congruence.
Qed.







(** [getText] on the text "0123456789". *)
Example getText_examples :
  let get := getText Sample.noNumber Sample.noString Sample.noPrimitive
               Sample.digits in
  get (Sample.rangeNode 2 4) JsUndefined JsUndefined = Normal (str "23")
  /\ get (Sample.rangeNode 2 4) (JsNum (num 1)) (JsNum (num 1)) = Normal (str "1234")
  /\ get (Sample.rangeNode 2 4) (JsNum (num 5)) (JsNum (num 50))
     = Normal (str "0123456789")
  /\ get (Sample.rangeNode 20 40) JsUndefined JsUndefined = Normal []
  /\ get (Sample.rangeNode 2 (-4)) JsUndefined JsUndefined = Normal (str "2345")
  /\ get (Sample.rangeNode 2 4) (JsNum (num (-3))) (JsNum (num (-5)))
     = Normal (str "5678")
  /\ get (JsObj [("range", JsArr [JsNum S754_nan])]) JsUndefined JsUndefined
     = Normal []
  /\ get JsNull JsUndefined JsUndefined = Normal (str "0123456789").
Proof. cbv zeta. repeat split; reflexivity. Qed.

(** ** Further properties of [parse] *)

(** X1: [parse] reads nothing of the language options but [year] and
    [strictBigInt]: two contexts whose options agree on these two give the
    same result, whatever [mode], [preserveComments], [tolerant] or other
    keys they hold. *)
Theorem parse_reads_year_and_strictBigInt_only
    (parseWithOptions : JsValue -> JsValue -> Completion JsValue)
    (file context1 context2 : JsValue) :
  isNullish file = false ->
  isNullish context1 = false ->
  isNullish context2 = false ->
  prop (optionsOf (prop context1 "languageOptions")) "year"
    = prop (optionsOf (prop context2 "languageOptions")) "year" ->
  prop (optionsOf (prop context1 "languageOptions")) "strictBigInt"
    = prop (optionsOf (prop context2 "languageOptions")) "strictBigInt" ->
  parse parseWithOptions file context1 = parse parseWithOptions file context2.
Proof.
  intros Hf H1 H2 Hy Hs.
  rewrite !parse_calls_parser by assumption.
  unfold passedOptions. cbv zeta. now rewrite Hy, Hs.
Qed.

Lemma parse_reads_year_and_strictBigInt_only_witness :
  parse Sample.echoOptions Sample.file Sample.year2020
  = parse Sample.echoOptions Sample.file
      (contextWith (JsObj [("mode", JsStr (str "json"));
                           ("tolerant", JsBool true);
                           ("year", JsNum (num 2020));
                           ("preserveComments", JsBool false)])).
Proof.
  apply (parse_reads_year_and_strictBigInt_only Sample.echoOptions); reflexivity.
Defined.

(** X2: a [year] that is falsy (0, NaN, the empty string, [null], [false],
    [undefined]) is replaced by 2025: the call is the one made with
    [year: 2025] and the same [strictBigInt]. *)
Theorem parse_falsy_year_is_2025
    (parseWithOptions : JsValue -> JsValue -> Completion JsValue)
    (file context : JsValue) :
  isNullish file = false ->
  isNullish context = false ->
  ToBoolean (prop (optionsOf (prop context "languageOptions")) "year") = false ->
  parse parseWithOptions file context
  = parse parseWithOptions file
      (contextWith
         (JsObj [("year", JsNum (num 2025));
                 ("strictBigInt",
                  prop (optionsOf (prop context "languageOptions")) "strictBigInt")])).
Proof.
  intros Hf Hc Hy.
  rewrite !parse_calls_parser by (assumption || reflexivity).
  unfold passedOptions, parserOptions, JsOr. cbv zeta. rewrite Hy.
  reflexivity.
Qed.

Lemma parse_falsy_year_is_2025_witness :
  parse Sample.echoOptions Sample.file
    (contextWith (JsObj [("year", JsNum (num 0)); ("strictBigInt", JsBool true)]))
  = Normal (okResult (JsObj [("year", JsNum (num 2025));
                             ("strictBigInt", JsBool true);
                             ("mode", JsStr (str "jsonv"));
                             ("preserveComments", JsBool true);
                             ("tolerant", JsBool false)])).
Proof.
  rewrite (parse_falsy_year_is_2025 Sample.echoOptions); reflexivity.
Defined.

(** X3: the reads of [file.body] and [context.languageOptions] are outside
    the [try]: with [file] null or undefined, or else with [context] null or
    undefined, [parse] throws a TypeError and the parser is not called. *)
Theorem parse_throws_without_file_or_context
    (parseWithOptions : JsValue -> JsValue -> Completion JsValue)
    (file context : JsValue) :
  isNullish file = true \/ isNullish context = true ->
  parse parseWithOptions file context
  = Throw (TypeError (if isNullish file then "body" else "languageOptions")).
Proof.
  intros H. unfold parse, Get.
  destruct (isNullish file); [reflexivity |].
  destruct H as [H | H]; [discriminate |].
  rewrite H. reflexivity.
Qed.

Lemma parse_throws_without_file_or_context_witness :
  parse Sample.echoOptions Sample.file JsUndefined = Throw (TypeError "languageOptions").
Proof.
  apply (parse_throws_without_file_or_context Sample.echoOptions Sample.file JsUndefined).
  right. reflexivity.
Defined.

(** X4: language options that are not an object (absent, [null], a boolean,
    a number, a string, an array) count as [{}]. *)
Theorem parse_options_not_object
    (parseWithOptions : JsValue -> JsValue -> Completion JsValue)
    (file context : JsValue) :
  isNullish file = false ->
  isNullish context = false ->
  (forall props, prop context "languageOptions" <> JsObj props) ->
  parse parseWithOptions file context
  = parse parseWithOptions file (contextWith (JsObj [])).
Proof.
  intros Hf Hc Hobj.
  rewrite !parse_calls_parser by (assumption || reflexivity).
  unfold passedOptions. cbv zeta.
  assert (E : forall k,
             prop (optionsOf (prop context "languageOptions")) k
             = prop (optionsOf (prop (contextWith (JsObj [])) "languageOptions")) k
             \/ k = "length" \/ indexOfKey k <> None).
  { intros k.
    destruct (prop context "languageOptions") as [ | | [|] | n | [| c s] | l | o];
      try (left; reflexivity); try (now destruct (Hobj o)).
    - left. unfold optionsOf, JsOr. cbn [ToBoolean].
      destruct (isZeroOrNaN n); reflexivity.
    - unfold optionsOf, JsOr. cbn [ToBoolean]. unfold prop. cbn [getOwn].
      destruct (String.eqb k "length") eqn:Ek;
        [right; left; now apply String.eqb_eq |].
      destruct (indexOfKey k); [right; right; discriminate | left; reflexivity].
    - unfold optionsOf, JsOr. cbn [ToBoolean]. unfold prop. cbn [getOwn].
      destruct (String.eqb k "length") eqn:Ek;
        [right; left; now apply String.eqb_eq |].
      destruct (indexOfKey k); [right; right; discriminate | left; reflexivity]. }
  destruct (E "year") as [-> | [H | H]];
    [| discriminate H | now contradiction H].
  destruct (E "strictBigInt") as [-> | [H | H]];
    [| discriminate H | now contradiction H].
  reflexivity.
Qed.

Lemma parse_options_not_object_witness :
  parse Sample.echoOptions Sample.file (contextWith (JsStr (str "year")))
  = parse Sample.echoOptions Sample.file Sample.noOptions.
Proof.
  apply (parse_options_not_object Sample.echoOptions); try reflexivity.
  intros props H. discriminate H.
Defined.

Lemma parse_returned_cases
    (parseWithOptions : JsValue -> JsValue -> Completion JsValue)
    (file context r : JsValue) :
  parse parseWithOptions file context = Normal r ->
  isNullish file = false
  /\ ((exists value,
          parseWithOptions (prop file "body") (passedOptions context) = Normal value
          /\ r = okResult value)
      \/ (exists error,
             parseWithOptions (prop file "body") (passedOptions context) = Throw error
             /\ r = errorResult (prop error "message")
                      (JsOr (prop error "line") (JsNum (num 1)))
                      (JsOr (prop error "column") (JsNum (num 1))))).
Proof.
  intros Hr.
  destruct (isNullish file) eqn:Hf.
  { unfold parse, Get in Hr. rewrite Hf in Hr. discriminate. }
  destruct (isNullish context) eqn:Hc.
  { unfold parse, Get in Hr. rewrite Hf, Hc in Hr. discriminate. }
  split; [reflexivity |].
  rewrite (parse_calls_parser _ _ _ Hf Hc) in Hr.
  destruct (parseWithOptions (prop file "body") (passedOptions context))
    as [value | error] eqn:HP.
  - left. exists value. split; [reflexivity |]. now injection Hr as <-.
  - right. exists error. split; [reflexivity |].
    cbn [bind tryCatch] in Hr. unfold parseCatch, Get in Hr.
    destruct (isNullish error); [discriminate |]. now injection Hr as <-.
Qed.

(** X5: a result of [parse] is of one of two kinds, told apart by [ok]:
    [ok: true] with the fixed [ast] and the parser's value and no
    [errors], exactly when the parser returned; or [ok: false] with one
    entry in [errors] and neither [ast] nor [jsonvValue], exactly when the
    parser threw. *)
Theorem parse_result_kinds
    (parseWithOptions : JsValue -> JsValue -> Completion JsValue)
    (file context r : JsValue) :
  parse parseWithOptions file context = Normal r ->
  (getOwn r "ok" = Some (JsBool true)
   /\ getOwn r "ast" = Some programNode
   /\ getOwn r "errors" = None
   /\ exists value,
        parseWithOptions (prop file "body") (passedOptions context) = Normal value
        /\ getOwn r "jsonvValue" = Some value)
  \/
  (getOwn r "ok" = Some (JsBool false)
   /\ getOwn r "ast" = None
   /\ getOwn r "jsonvValue" = None
   /\ exists error entry,
        parseWithOptions (prop file "body") (passedOptions context) = Throw error
        /\ getOwn r "errors" = Some (JsArr [entry])
        /\ getOwn entry "message" = Some (prop error "message")).
Proof.
  intros Hr.
  destruct (parse_returned_cases _ _ _ _ Hr)
    as [_ [[value [HP ->]] | [error [HP ->]]]].
  - left. repeat split; try reflexivity.
    exists value. split; [exact HP | reflexivity].
  - right. repeat split; try reflexivity.
    eexists error, _. split; [exact HP |]. split; reflexivity.
Qed.

Lemma parse_result_kinds_witness :
  getOwn (errorResult (JsStr (str "Unexpected token")) (JsNum (num 3)) (JsNum (num 1)))
    "ok" = Some (JsBool false).
Proof.
  destruct (parse_result_kinds Sample.throwsAtLine3 Sample.file Sample.noOptions
              (errorResult (JsStr (str "Unexpected token")) (JsNum (num 3)) (JsNum (num 1)))
              eq_refl)
    as [[Hok _] | [Hok _]].
  - discriminate Hok.
  - exact Hok.
Defined.

(** X6: of a thrown error, [parse] reports [message], [line] and [column]
    and nothing else: two errors that agree on these three give the same
    result, whatever their [name], [kind], [stack] or other fields. *)
Theorem parse_reports_message_line_column_only
    (parser1 parser2 : JsValue -> JsValue -> Completion JsValue)
    (file context error1 error2 : JsValue) :
  isNullish file = false ->
  isNullish context = false ->
  parser1 (prop file "body") (passedOptions context) = Throw error1 ->
  parser2 (prop file "body") (passedOptions context) = Throw error2 ->
  isNullish error1 = false ->
  isNullish error2 = false ->
  prop error1 "message" = prop error2 "message" ->
  prop error1 "line" = prop error2 "line" ->
  prop error1 "column" = prop error2 "column" ->
  parse parser1 file context = parse parser2 file context.
Proof.
  intros Hf Hc H1 H2 He1 He2 Hm Hl Hcol.
  rewrite (parse_of_thrown parser1 file context error1) by assumption.
  rewrite (parse_of_thrown parser2 file context error2) by assumption.
  now rewrite Hm, Hl, Hcol.
Qed.

Lemma parse_reports_message_line_column_only_witness :
  parse (fun _ _ => Throw (JsObj [("name", JsStr (str "SyntaxError"));
                                  ("message", JsStr (str "bad"));
                                  ("line", JsNum (num 2));
                                  ("column", JsNum (num 5))]))
        Sample.file Sample.noOptions
  = parse (fun _ _ => Throw (JsObj [("message", JsStr (str "bad"));
                                    ("column", JsNum (num 5));
                                    ("kind", JsStr (str "Circular"));
                                    ("line", JsNum (num 2))]))
          Sample.file Sample.noOptions.
Proof.
  eapply parse_reports_message_line_column_only; reflexivity.
Defined.

(** X7: whatever the thrown error holds, the reported [line] and [column]
    are truthy: each is the error's own when that is truthy, and 1 when it
    is absent, 0, NaN, [null], [undefined], [false] or the empty string. *)
Theorem parse_reported_position_truthy
    (parseWithOptions : JsValue -> JsValue -> Completion JsValue)
    (file context error : JsValue) :
  isNullish file = false ->
  isNullish context = false ->
  parseWithOptions (prop file "body") (passedOptions context) = Throw error ->
  isNullish error = false ->
  exists line column,
    parse parseWithOptions file context
      = Normal (errorResult (prop error "message") line column)
    /\ line = (if ToBoolean (prop error "line") then prop error "line"
               else JsNum (num 1))
    /\ column = (if ToBoolean (prop error "column") then prop error "column"
                 else JsNum (num 1))
    /\ ToBoolean line = true
    /\ ToBoolean column = true.
Proof.
  intros Hf Hc HP He.
  eexists _, _. split; [now apply parse_of_thrown |].
  unfold JsOr. repeat split.
  - destruct (ToBoolean (prop error "line")) eqn:E; [exact E | reflexivity].
  - destruct (ToBoolean (prop error "column")) eqn:E; [exact E | reflexivity].
Qed.

Lemma parse_reported_position_truthy_witness :
  parse (fun _ _ => Throw (JsObj [("message", JsStr (str "bad"));
                                  ("line", JsNum (num 0));
                                  ("column", JsNull)]))
        Sample.file Sample.noOptions
  = Normal (errorResult (JsStr (str "bad")) (JsNum (num 1)) (JsNum (num 1))).
Proof.
  destruct (parse_reported_position_truthy
              (fun _ _ => Throw (JsObj [("message", JsStr (str "bad"));
                                        ("line", JsNum (num 0));
                                        ("column", JsNull)]))
              Sample.file Sample.noOptions
              (JsObj [("message", JsStr (str "bad"));
                      ("line", JsNum (num 0));
                      ("column", JsNull)]))
    as [line [column [Hr [Hl [Hc _]]]]];
    [reflexivity | reflexivity | reflexivity | reflexivity |].
  rewrite Hr, Hl, Hc. reflexivity.
Defined.

(** ** Further properties of the source code object *)

Lemma getLines_splits (sc : SourceCode) :
  SplitOnLineBreaks (text sc) (getLines sc).
Proof.
  unfold getLines. rewrite split_scanLines.
  apply (scanLines_splits (text sc) []). constructor.
Qed.

Lemma getLines_unique (sc : SourceCode) (ls : list JsString) :
  SplitOnLineBreaks (text sc) ls -> getLines sc = ls.
Proof.
  intros H. unfold getLines. rewrite split_scanLines.
  symmetry. now apply SplitOnLineBreaks_scanLines.
Qed.

Lemma filter_line (l : JsString) :
  NoLineTerminator l ->
  filter notTerminator l = l /\ filter isLineTerminator l = [].
Proof.
  induction 1 as [| c l Hc Hl [IH1 IH2]]; [split; reflexivity |].
  cbn [filter]. unfold notTerminator at 1. rewrite Hc. cbn [negb].
  now rewrite IH1, IH2.
Qed.

Lemma filter_break (b : JsString) :
  LineBreak b ->
  filter notTerminator b = []
  /\ 1 <= List.length (filter isLineTerminator b) <= 2
  /\ filter isLineTerminator b = b.
Proof. intros []; cbn; repeat split; lia. Qed.

Lemma SplitOnLineBreaks_facts (t : JsString) (ls : list JsString) :
  SplitOnLineBreaks t ls ->
  Forall NoLineTerminator ls
  /\ List.concat ls = filter notTerminator t
  /\ List.length ls - 1 <= List.length (filter isLineTerminator t)
  /\ List.length (filter isLineTerminator t) <= 2 * (List.length ls - 1)
  /\ 1 <= List.length ls.
Proof.
  induction 1 as [l Hl | l b rest ls Hl Hb Hcr Hrest [IH1 [IH2 [IH3 [IH4 IH5]]]]].
  - destruct (filter_line l Hl) as [F1 F2].
    rewrite F1, F2. cbn. rewrite app_nil_r. repeat split; auto.
  - destruct (filter_line l Hl) as [F1 F2].
    destruct (filter_break b Hb) as [B1 [B2 _]].
    rewrite !filter_app, F1, F2, B1, <- IH2.
    cbn [List.concat app List.length]. rewrite !length_app.
    repeat split; auto; lia.
Qed.

(** X8: the lines hold, in order, exactly the code units of the text that
    are not line terminators, and no line holds a line terminator. *)
Theorem getLines_content (sc : SourceCode) :
  Forall NoLineTerminator (getLines sc)
  /\ List.concat (getLines sc) = filter notTerminator (text sc).
Proof.
  destruct (SplitOnLineBreaks_facts _ _ (getLines_splits sc)) as [H1 [H2 _]].
  split; assumption.
Qed.

Lemma filter_partition_length (t : JsString) :
  List.length (filter notTerminator t) + List.length (filter isLineTerminator t)
  = List.length t.
Proof.
  induction t as [| c t IH]; [reflexivity |].
  cbn [filter]. unfold notTerminator at 1.
  destruct (isLineTerminator c); cbn [negb List.length]; lia.
Qed.

(** X9: there is always at least one line; with [k] line-terminator code
    units in the text there are at most [k + 1] lines and at least
    [k / 2 + 1], and the lengths of the lines add up to the length of the
    text less [k]. *)
Theorem getLines_count (sc : SourceCode) :
  let k := List.length (filter isLineTerminator (text sc)) in
  1 <= List.length (getLines sc)
  /\ List.length (getLines sc) <= k + 1
  /\ k <= 2 * (List.length (getLines sc) - 1)
  /\ List.length (List.concat (getLines sc)) + k = List.length (text sc).
Proof.
  destruct (SplitOnLineBreaks_facts _ _ (getLines_splits sc))
    as [_ [H2 [H3 [H4 H5]]]].
  cbv zeta. rewrite H2, filter_partition_length. repeat split; lia.
Qed.

(** X10: the text is returned as one line exactly when it holds no line
    terminator; in particular the empty text has the one line "". *)
Theorem getLines_single_line (sc : SourceCode) :
  (getLines sc = [text sc] <-> NoLineTerminator (text sc))
  /\ (text sc = [] -> getLines sc = [[]]).
Proof.
  split; [split |].
  - intros H.
    destruct (SplitOnLineBreaks_facts _ _ (getLines_splits sc)) as [Hall _].
    rewrite H in Hall. now inversion Hall.
  - intros H. apply getLines_unique. now constructor.
  - intros H. apply getLines_unique. rewrite H. constructor. constructor.
Qed.

Lemma joinWith_splits (sep : JsString) (ls : list JsString) :
  LineBreak sep ->
  ls <> [] ->
  Forall NoLineTerminator ls ->
  SplitOnLineBreaks (joinWith sep ls) ls.
Proof.
  intros Hsep Hne Hall. induction Hall as [| l ls Hl Hls IH]; [contradiction |].
  destruct ls as [| l' ls'].
  - now constructor.
  - change (joinWith sep (l :: l' :: ls')) with (l ++ sep ++ joinWith sep (l' :: ls')).
    apply split_break; auto.
    + intros -> rest' Hrest.
      inversion Hls as [| ? ? Hl' _]; subst.
      destruct l' as [| c l'].
      * destruct ls'; cbn in Hrest; discriminate.
      * inversion Hl' as [| ? ? Hc _]; subst.
        assert (c = LF) as -> by (destruct ls'; cbn in Hrest; congruence).
        discriminate Hc.
    + apply IH. discriminate.
Qed.

(** X11: joining lines with any one of the five line breaks and splitting
    again gives the lines back, as long as there is at least one line and no
    line holds a line terminator; so joining the lines of a text with \n and
    splitting again changes nothing. *)
Theorem getLines_of_joined_lines :
  (forall (sc : SourceCode) (sep : JsString) (ls : list JsString),
      LineBreak sep ->
      ls <> [] ->
      Forall NoLineTerminator ls ->
      text sc = joinWith sep ls ->
      getLines sc = ls)
  /\ (forall sc sc' : SourceCode,
         text sc' = joinWith [LF] (getLines sc) ->
         getLines sc' = getLines sc).
Proof.
  assert (H : forall (sc : SourceCode) (sep : JsString) (ls : list JsString),
             LineBreak sep -> ls <> [] -> Forall NoLineTerminator ls ->
             text sc = joinWith sep ls -> getLines sc = ls).
  { intros sc sep ls Hsep Hne Hall Htext. apply getLines_unique. rewrite Htext.
    now apply joinWith_splits. }
  split; [exact H |].
  intros sc sc' Htext.
  destruct (SplitOnLineBreaks_facts _ _ (getLines_splits sc)) as [Hall [_ [_ [_ Hlen]]]].
  apply (H sc' [LF]); auto using break_LF.
  intros Hnil. rewrite Hnil in Hlen. cbn in Hlen. lia.
Qed.

Lemma getLines_of_joined_lines_witness :
  getLines {| text := joinWith [CR; LF] [str "a"; []; str "b"];
              ast := programNode; lines := []; hasBOM := false |}
  = [str "a"; []; str "b"]
  /\ getLines {| text := joinWith [LF] (getLines {| text := str "a" ++ [CR] ++ str "b";
                                                    ast := programNode; lines := [];
                                                    hasBOM := false |});
                 ast := programNode; lines := []; hasBOM := false |}
     = [str "a"; str "b"].
Proof.
  destruct getLines_of_joined_lines as [Hjoin Hnorm].
  split.
  - apply (Hjoin _ [CR; LF]).
    + constructor.
    + discriminate.
    + repeat constructor.
    + reflexivity.
  - rewrite (Hnorm {| text := str "a" ++ [CR] ++ str "b";
                      ast := programNode; lines := []; hasBOM := false |});
      reflexivity.
Defined.

Lemma SplitOnLineBreaks_append (a b : JsString) (la lb : list JsString) :
  SplitOnLineBreaks a la ->
  SplitOnLineBreaks b lb ->
  (forall a', a <> a' ++ [CR]) ->
  SplitOnLineBreaks (a ++ [LF] ++ b) (la ++ lb).
Proof.
  intros Ha Hb. induction Ha as [l Hl | l br rest ls Hl Hbr Hcr Hrest IH]; intros Hend.
  - cbn [app]. apply (split_break l [LF] b lb); auto using break_LF.
    intros H. discriminate H.
  - rewrite <- !app_assoc. cbn [app].
    change (l :: ls ++ lb) with (l :: (ls ++ lb)).
    apply (split_break l br (rest ++ LF :: b)); auto.
    + intros -> rest' Hstart. destruct rest as [| c rest].
      * apply (Hend l). now rewrite app_nil_r.
      * cbn in Hstart. injection Hstart as -> _. now apply (Hcr eq_refl rest).
    + apply IH. intros a' Ha'. apply (Hend (l ++ br ++ a')).
      rewrite Ha', <- !app_assoc. reflexivity.
Qed.

(** X12: when a text is [a], then \n, then [b], and [a] does not end with
    \r, its lines are the lines of [a] followed by the lines of [b]. *)
Theorem getLines_append (sc sc1 sc2 : SourceCode) :
  text sc = text sc1 ++ [LF] ++ text sc2 ->
  (forall a', text sc1 <> a' ++ [CR]) ->
  getLines sc = getLines sc1 ++ getLines sc2.
Proof.
  intros Htext Hend. apply getLines_unique. rewrite Htext.
  apply SplitOnLineBreaks_append; auto using getLines_splits.
Qed.

Lemma getLines_append_witness :
  getLines {| text := str "a" ++ [LS] ++ str "b" ++ [LF] ++ str "c" ++ [CR; LF];
              ast := programNode; lines := []; hasBOM := false |}
  = [str "a"; str "b"; str "c"; []].
Proof.
  rewrite (getLines_append _
             {| text := str "a" ++ [LS] ++ str "b";
                ast := programNode; lines := []; hasBOM := false |}
             {| text := str "c" ++ [CR; LF];
                ast := programNode; lines := []; hasBOM := false |}).
  - reflexivity.
  - reflexivity.
  - intros a' H. apply (f_equal (@rev code_unit)) in H.
    rewrite rev_app_distr in H. discriminate H.
Defined.

Lemma scanLines_head (s piece : JsString) :
  exists l ls, scanLines piece s = (piece ++ l) :: ls.
Proof.
  revert piece. induction s as [| c rest IH]; intros piece.
  - exists [], []. now rewrite app_nil_r.
  - cbn [scanLines]. destruct (isLineTerminator c).
    + eexists [], _. rewrite app_nil_r. reflexivity.
    + destruct (IH (piece ++ [c])) as [l [ls H]].
      exists (c :: l), ls. rewrite H, <- app_assoc. reflexivity.
Qed.

(** X13: for a file whose body is a string, [hasBOM] tells whether the text
    starts with U+FEFF; the mark is not removed: it stays the first code unit
    of [text] and of the first line. *)
Theorem createSourceCode_hasBOM
    (NumberToString : number -> JsString)
    (ObjectToString : JsValue -> Completion JsString)
    (file parseResult context : JsValue) (t : JsString) (sc : SourceCode) :
  Get file "body" = Normal (JsStr t) ->
  createSourceCode NumberToString ObjectToString file parseResult context = Normal sc ->
  (hasBOM sc = true <-> exists rest, t = 0xfeff%N :: rest)
  /\ (hasBOM sc = true ->
      exists rest l ls,
        text sc = 0xfeff%N :: rest /\ lines sc = (0xfeff%N :: l) :: ls).
Proof.
  intros Hbody Hsc. unfold createSourceCode in Hsc.
  rewrite Hbody in Hsc. cbn [bind] in Hsc.
  destruct (Get parseResult "ast") as [a | e]; [| discriminate].
  cbn [bind] in Hsc. injection Hsc as <-. cbn [hasBOM text lines].
  assert (Hiff : match t with c :: _ => (c =? 0xfeff)%N | [] => false end = true
                 <-> exists rest, t = 0xfeff%N :: rest).
  { destruct t as [| c rest].
    - split; [discriminate | intros [rest H]; discriminate].
    - split.
      + intros H. apply N.eqb_eq in H. subst c. now exists rest.
      + intros [rest' H]. injection H as -> _. reflexivity. }
  split; [exact Hiff |].
  intros H. apply Hiff in H. destruct H as [rest ->].
  rewrite split_scanLines. cbn [scanLines].
  change (isLineTerminator 0xfeff%N) with false. cbn [app].
  destruct (scanLines_head rest [0xfeff%N]) as [l [ls Hhead]].
  exists rest, l, ls. split; [reflexivity | exact Hhead].
Qed.

Lemma createSourceCode_hasBOM_witness :
  exists sc,
    createSourceCode (fun _ => []) (fun _ => Normal [])
      (JsObj [("body", JsStr (0xfeff%N :: str "{}" ++ [LF]))])
      (okResult JsNull) JsUndefined = Normal sc
    /\ hasBOM sc = true
    /\ lines sc = [0xfeff%N :: str "{}"; []].
Proof.
  eexists. split; [reflexivity |]. split.
  - apply (createSourceCode_hasBOM (fun _ => []) (fun _ => Normal [])
             (JsObj [("body", JsStr (0xfeff%N :: str "{}" ++ [LF]))])
             (okResult JsNull) JsUndefined (0xfeff%N :: str "{}" ++ [LF]));
      [reflexivity | reflexivity |].
    eexists. reflexivity.
  - reflexivity.
Defined.

(** X14: a body that is missing or falsy and not a string ([undefined],
    [null], [false], 0, NaN) gives the empty text: one empty line, no BOM. *)
Theorem createSourceCode_without_body
    (NumberToString : number -> JsString)
    (ObjectToString : JsValue -> Completion JsString)
    (file parseResult context : JsValue) :
  isNullish file = false ->
  isNullish parseResult = false ->
  ToBoolean (prop file "body") = false ->
  createSourceCode NumberToString ObjectToString file parseResult context
  = Normal {| text := []; ast := prop parseResult "ast";
              lines := [[]]; hasBOM := false |}.
Proof.
  intros Hf Hr Hbody. unfold createSourceCode.
  rewrite (Get_defined file "body" Hf). cbn [bind].
  assert (HS : match prop file "body" with
               | JsStr s => Normal s
               | _ => String_ NumberToString ObjectToString
                        (JsOr (prop file "body") (JsStr []))
               end = Normal []).
  { unfold JsOr. rewrite Hbody.
    destruct (prop file "body") as [ | | b | n | [| c s] | l | o];
      try reflexivity; discriminate Hbody. }
  rewrite HS. cbn [bind]. rewrite (Get_defined parseResult "ast" Hr).
  reflexivity.
Qed.

Lemma createSourceCode_without_body_witness :
  createSourceCode (fun _ => str "0") (fun _ => Normal [])
    (JsObj [("path", JsStr (str "a.jsonv"))]) (okResult JsNull) JsUndefined
  = Normal {| text := []; ast := programNode; lines := [[]]; hasBOM := false |}.
Proof.
  apply (createSourceCode_without_body (fun _ => str "0") (fun _ => Normal [])
           (JsObj [("path", JsStr (str "a.jsonv"))]) (okResult JsNull) JsUndefined);
    reflexivity.
Defined.

(** X15: [createSourceCode] on the result of [parse]: for a file with a
    string body the source code object is built whether the parse succeeded
    or failed; its [text] is the body, and its [ast] is the Program node
    after a success and [undefined] after a failure. *)
Theorem createSourceCode_after_parse
    (parseWithOptions : JsValue -> JsValue -> Completion JsValue)
    (NumberToString : number -> JsString)
    (ObjectToString : JsValue -> Completion JsString)
    (file context r : JsValue) (t : JsString) :
  Get file "body" = Normal (JsStr t) ->
  parse parseWithOptions file context = Normal r ->
  exists sc,
    createSourceCode NumberToString ObjectToString file r context = Normal sc
    /\ text sc = t
    /\ lines sc = getLines sc
    /\ ast sc = match parseWithOptions (JsStr t) (passedOptions context) with
                | Normal _ => programNode
                | Throw _ => JsUndefined
                end.
Proof.
  intros Hbody Hr.
  assert (Hf : isNullish file = false).
  { unfold Get in Hbody. destruct (isNullish file); [discriminate | reflexivity]. }
  assert (Ht : prop file "body" = JsStr t).
  { rewrite (Get_defined file "body" Hf) in Hbody. now injection Hbody. }
  destruct (parse_returned_cases _ _ _ _ Hr)
    as [_ [[value [HP ->]] | [error [HP ->]]]];
    unfold createSourceCode; rewrite Hbody; cbn [bind];
    (rewrite Get_defined by reflexivity); cbn [bind];
    (eexists; split; [reflexivity |]); cbn [text lines ast];
    rewrite <- Ht, HP; repeat split.
Qed.

Lemma createSourceCode_after_parse_witness :
  exists sc,
    createSourceCode (fun _ => []) (fun _ => Normal []) Sample.file
      (errorResult (JsStr (str "Unexpected token")) (JsNum (num 3)) (JsNum (num 1)))
      Sample.noOptions = Normal sc
    /\ text sc = str "{ a: }"
    /\ ast sc = JsUndefined.
Proof.
  destruct (createSourceCode_after_parse Sample.throwsAtLine3
              (fun _ => []) (fun _ => Normal []) Sample.file Sample.noOptions
              (errorResult (JsStr (str "Unexpected token")) (JsNum (num 3)) (JsNum (num 1)))
              (str "{ a: }") eq_refl eq_refl)
    as [sc [Hsc [Ht [_ Ha]]]].
  exists sc. repeat split; assumption.
Defined.

(** *** Integers as numbers *)

Lemma digits2_pos_size (p : positive) : digits2_pos p = Pos.size p.
Proof. induction p; cbn; now rewrite ?IHp. Qed.

Lemma digits2_pos_bounds (p : positive) :
  (2 ^ Zpos (digits2_pos p) <= 2 * Zpos p /\ Zpos p < 2 ^ Zpos (digits2_pos p))%Z.
Proof.
  rewrite digits2_pos_size. split.
  - pose proof (Pos.size_le p) as H.
    apply Pos2Z.pos_le_pos in H. rewrite Pos2Z.inj_pow in H. exact H.
  - pose proof (Pos.size_gt p) as H.
    apply Pos2Z.pos_lt_pos in H. rewrite Pos2Z.inj_pow in H. exact H.
Qed.

Lemma digits2_pos_small (p : positive) :
  (Zpos p < 2 ^ 53)%Z -> (Zpos (digits2_pos p) <= 53)%Z.
Proof.
  intros Hp. destruct (digits2_pos_bounds p) as [Hle _].
  destruct (Z.le_gt_cases (Zpos (digits2_pos p)) 53) as [H | H]; [exact H |].
  assert (2 ^ 54 <= 2 ^ Zpos (digits2_pos p))%Z by (apply Z.pow_le_mono_r; lia).
  change (2 ^ 54)%Z with (2 * 2 ^ 53)%Z in *. lia.
Qed.

Lemma iter_xO_spec (p k : positive) :
  Zpos (Pos.iter xO p k) = (Zpos p * 2 ^ Zpos k)%Z
  /\ digits2_pos (Pos.iter xO p k) = (digits2_pos p + k)%positive.
Proof.
  induction k as [| k [IH1 IH2]] using Pos.peano_ind.
  - cbn. split; [lia |]. now rewrite Pos.add_1_r.
  - rewrite Pos.iter_succ. cbn [digits2_pos]. rewrite IH2. split.
    + rewrite Pos2Z.inj_xO, IH1, Pos2Z.inj_succ, Z.pow_succ_r by lia. lia.
    + now rewrite Pos.add_succ_r.
Qed.

(** The shape of [num z] for a positive [z] below 2^53: a 53-bit mantissa
    over the exponent that keeps the value [z]. *)
Lemma num_pos_spec (p : positive) :
  (Zpos p < 2 ^ 53)%Z ->
  exists m,
    num (Zpos p) = S754_finite false m (Zpos (digits2_pos p) - 53)
    /\ Zpos m = (Zpos p * 2 ^ (53 - Zpos (digits2_pos p)))%Z.
Proof.
  intros Hp. pose proof (digits2_pos_small p Hp) as Hd.
  unfold num, binary_normalize, binary_round.
  set (d := digits2_pos p) in *.
  assert (Hfexp : fexp prec emax (Zpos d + 0) = (Zpos d - 53)%Z).
  { unfold fexp, emin, prec, emax. lia. }
  rewrite Hfexp. unfold shl_align.
  assert (Haux : forall m, digits2_pos m = 53%positive ->
             binary_round_aux prec emax false (Zpos m) (Zpos d - 53) loc_Exact
             = S754_finite false m (Zpos d - 53)).
  { intros m Hm. unfold binary_round_aux, shr_fexp. cbn [Zdigits2 shr_record_of_loc].
    rewrite Hm.
    assert (Hf : (fexp prec emax (53 + (Zpos d - 53)) - (Zpos d - 53) = 0)%Z).
    { unfold fexp, emin, prec, emax. lia. }
    rewrite Hf. cbn [shr shr_m loc_of_shr_record round_nearest_even Zdigits2
                     shr_record_of_loc].
    rewrite Hm, Hf. cbn [shr shr_m].
    unfold prec, emax.
    destruct (Z.leb_spec (Zpos d - 53) (1024 - 53)); [reflexivity | lia]. }
  destruct (Zpos d - 53 - 0)%Z as [| k | k] eqn:Hk.
  - assert (H0 : (Zpos d - 53 = 0)%Z) by lia.
    assert (Hm : digits2_pos p = 53%positive) by (fold d; apply Pos2Z.inj; lia).
    specialize (Haux p Hm). rewrite H0 in Haux.
    exists p. rewrite H0, Haux.
    split; [reflexivity |]. replace (53 - Zpos d)%Z with 0%Z by lia. lia.
  - lia.
  - destruct (iter_xO_spec p k) as [Hv Hdig].
    exists (Pos.iter xO p k). rewrite Haux.
    + split; [reflexivity |]. rewrite Hv. f_equal. f_equal. lia.
    + rewrite Hdig. fold d. apply Pos2Z.inj. rewrite Pos2Z.inj_add. lia.
Qed.

Lemma ToIntegerOrInfinity_num (n : nat) :
  (Z.of_nat n < 2 ^ 53)%Z ->
  ToIntegerOrInfinity (num (Z.of_nat n)) = Integer (Z.of_nat n).
Proof.
  intros Hn. destruct (Z.of_nat n) as [| p | p] eqn:E; [reflexivity | | lia].
  destruct (num_pos_spec p Hn) as [m [Hnum Hm]].
  pose proof (digits2_pos_small p Hn) as Hd.
  rewrite Hnum. cbn [ToIntegerOrInfinity]. f_equal.
  set (k := (53 - Zpos (digits2_pos p))%Z) in *.
  replace (Zpos (digits2_pos p) - 53)%Z with (- k)%Z by lia.
  rewrite Z.shiftl_opp_r, Z.shiftr_div_pow2 by lia.
  rewrite Hm. apply Z.div_mul. apply Z.pow_nonzero; lia.
Qed.

Lemma SFltb_num_lt (a b : nat) :
  (Z.of_nat b < 2 ^ 53)%Z ->
  a < b ->
  SFltb (num (Z.of_nat a)) (num (Z.of_nat b)) = true.
Proof.
  intros Hb Hlt.
  destruct (Z.of_nat b) as [| q | q] eqn:Eb; [lia | | lia].
  destruct (num_pos_spec q Hb) as [mb [Hnb Hmb]]. rewrite Hnb.
  destruct (Z.of_nat a) as [| p | p] eqn:Ea; [reflexivity | | lia].
  assert (Hp : (Zpos p < 2 ^ 53)%Z) by lia.
  destruct (num_pos_spec p Hp) as [ma [Hna Hma]]. rewrite Hna.
  assert (Hpq : (Zpos p < Zpos q)%Z) by lia.
  destruct (digits2_pos_bounds p) as [Hp1 Hp2].
  destruct (digits2_pos_bounds q) as [Hq1 Hq2].
  assert (Hdig : (Zpos (digits2_pos p) <= Zpos (digits2_pos q))%Z).
  { destruct (Z.le_gt_cases (Zpos (digits2_pos p)) (Zpos (digits2_pos q)))
      as [H | H]; [exact H |].
    assert (2 ^ (Zpos (digits2_pos q) + 1) <= 2 ^ Zpos (digits2_pos p))%Z
      by (apply Z.pow_le_mono_r; lia).
    rewrite Z.pow_add_r in * by lia. lia. }
  unfold SFltb, SFcompare.
  destruct (Z.compare_spec (Zpos (digits2_pos p) - 53) (Zpos (digits2_pos q) - 53))
    as [Heq | Hl | Hg]; [| reflexivity | lia].
  rewrite Pos.compare_cont_spec. cbn [Pos.switch_Eq].
  assert (Hmm : (Zpos ma < Zpos mb)%Z).
  { rewrite Hma, Hmb.
    replace (Zpos (digits2_pos q)) with (Zpos (digits2_pos p)) by lia.
    apply Z.mul_lt_mono_pos_r; [| exact Hpq].
    apply Z.pow_pos_nonneg; [lia |].
    pose proof (digits2_pos_small p Hp). lia. }
  unfold Z.lt in Hmm. cbn [Z.compare] in Hmm. now rewrite Hmm.
Qed.

(** Below 2^53 the numbers compare as the integers they stand for. *)
Lemma SFltb_num (a b : nat) :
  (Z.of_nat a < 2 ^ 53)%Z ->
  (Z.of_nat b < 2 ^ 53)%Z ->
  SFltb (num (Z.of_nat a)) (num (Z.of_nat b)) = (a <? b).
Proof.
  intros Ha Hb. destruct (Nat.ltb_spec a b) as [Hlt | Hge].
  - now apply SFltb_num_lt.
  - destruct (Nat.eq_dec a b) as [-> | Hne].
    + apply SFltb_irrefl.
    + apply SFltb_asym. apply SFltb_num_lt; [exact Ha | lia].
Qed.

Lemma num_shape (n : nat) :
  (Z.of_nat n < 2 ^ 53)%Z ->
  num (Z.of_nat n) = S754_zero false
  \/ exists m e, num (Z.of_nat n) = S754_finite false m e.
Proof.
  intros Hn. destruct (Z.of_nat n) as [| p | p] eqn:E; [now left | | lia].
  destruct (num_pos_spec p Hn) as [m [H _]]. right. eauto.
Qed.

Lemma sub_add_num_zero (n : nat) :
  (Z.of_nat n < 2 ^ 53)%Z ->
  sub (num (Z.of_nat n)) (num 0) = num (Z.of_nat n)
  /\ add (num (Z.of_nat n)) (num 0) = num (Z.of_nat n).
Proof.
  intros Hn. destruct (num_shape n Hn) as [-> | [m [e ->]]]; split; reflexivity.
Qed.

Lemma Math_max_zero_num (n : nat) :
  (Z.of_nat n < 2 ^ 53)%Z ->
  Math_max [num 0; num (Z.of_nat n)] = num (Z.of_nat n).
Proof.
  intros Hn. destruct (num_shape n Hn) as [-> | [m [e ->]]]; reflexivity.
Qed.

Lemma Math_min_num (len b : nat) :
  (Z.of_nat len < 2 ^ 53)%Z ->
  (Z.of_nat b < 2 ^ 53)%Z ->
  Math_min [num (Z.of_nat len); num (Z.of_nat b)] = num (Z.of_nat (Nat.min b len)).
Proof.
  intros Hlen Hb.
  pose proof (SFltb_num b len Hb Hlen) as Hcmp.
  assert (Hmin : num (Z.of_nat (Nat.min b len))
                 = if b <? len then num (Z.of_nat b) else num (Z.of_nat len)).
  { destruct (Nat.ltb_spec b len); f_equal; f_equal; lia. }
  rewrite Hmin, <- Hcmp.
  destruct (num_shape len Hlen) as [-> | [ml [el ->]]];
    destruct (num_shape b Hb) as [-> | [mb [eb ->]]];
    reflexivity.
Qed.

(** X17: [getLoc] and [getRange] have no guard for a missing node: for
    [null] or [undefined] they throw a TypeError.  For any other node they
    return the node's own [loc] or [range] when that is truthy and the
    default otherwise, so what they return is never falsy. *)
Theorem getLoc_getRange_behaviour (node : JsValue) :
  (isNullish node = true ->
   getLoc node = Throw (TypeError "loc")
   /\ getRange node = Throw (TypeError "range"))
  /\ (isNullish node = false ->
      exists loc range,
        getLoc node = Normal loc
        /\ getRange node = Normal range
        /\ loc = (if ToBoolean (prop node "loc") then prop node "loc" else defaultLoc)
        /\ range = (if ToBoolean (prop node "range") then prop node "range"
                    else defaultRange)
        /\ ToBoolean loc = true
        /\ ToBoolean range = true).
Proof.
  split; intros Hn; unfold getLoc, getRange, Get; rewrite Hn; cbn [bind].
  - split; reflexivity.
  - eexists _, _. unfold JsOr. repeat split.
    + destruct (ToBoolean (prop node "loc")) eqn:E; [exact E | reflexivity].
    + destruct (ToBoolean (prop node "range")) eqn:E; [exact E | reflexivity].
Qed.

Lemma getLoc_getRange_behaviour_witness :
  getLoc JsUndefined = Throw (TypeError "loc")
  /\ getRange (JsObj [("type", JsStr (str "Program")); ("range", JsNull)])
     = Normal defaultRange.
Proof.
  split.
  - apply (getLoc_getRange_behaviour JsUndefined). reflexivity.
  - destruct (proj2 (getLoc_getRange_behaviour
                       (JsObj [("type", JsStr (str "Program")); ("range", JsNull)]))
                eq_refl)
      as [loc [range [_ [Hr [_ [Hrange _]]]]]].
    rewrite Hr, Hrange. reflexivity.
Defined.

(** X18: after a successful parse the traversal visits the root Program
    node and nothing else, entering it and then leaving it; the value the
    parser returned is not traversed, and the one node visited has no
    position of its own: [getLoc] and [getRange] give the defaults for
    it. *)
Theorem traverse_after_successful_parse
    (parseWithOptions : JsValue -> JsValue -> Completion JsValue)
    (NumberToString : number -> JsString)
    (ObjectToString : JsValue -> Completion JsString)
    (file context r : JsValue) (t : JsString) (sc : SourceCode) :
  Get file "body" = Normal (JsStr t) ->
  parse parseWithOptions file context = Normal r ->
  getOwn r "ok" = Some (JsBool true) ->
  createSourceCode NumberToString ObjectToString file r context = Normal sc ->
  traverse sc = [visitStep programNode 1; visitStep programNode 2]
  /\ Forall (fun step =>
               getOwn step "target" = Some programNode
               /\ getOwn step "args" = Some (JsArr [programNode]))
       (traverse sc)
  /\ getLoc programNode = Normal defaultLoc
  /\ getRange programNode = Normal defaultRange.
Proof.
  intros Hbody Hr Hok Hsc.
  assert (Ha : ast sc = programNode).
  { destruct (parse_returned_cases _ _ _ _ Hr)
      as [_ [[value [_ ->]] | [error [_ ->]]]]; [| discriminate Hok].
    unfold createSourceCode in Hsc. rewrite Hbody in Hsc. cbn [bind] in Hsc.
    rewrite Get_defined in Hsc by reflexivity. cbn [bind] in Hsc.
    now injection Hsc as <-. }
  unfold traverse. rewrite Ha.
  split; [reflexivity |]. split; [| split; reflexivity].
  repeat constructor.
Qed.

Lemma traverse_after_successful_parse_witness :
  exists sc,
    createSourceCode (fun _ => []) (fun _ => Normal []) Sample.file
      (okResult (JsStr (str "{ a: }"))) Sample.noOptions = Normal sc
    /\ traverse sc = [visitStep programNode 1; visitStep programNode 2].
Proof.
  eexists. split; [reflexivity |].
  apply (traverse_after_successful_parse (Sample.echoText 0)
           (fun _ => []) (fun _ => Normal []) Sample.file Sample.noOptions
           (okResult (JsStr (str "{ a: }"))) (str "{ a: }")); reflexivity.
Defined.

(** *** Exact arithmetic on integers below 2^53 *)

Lemma digits2_pos_unique (q : positive) (x : Z) :
  (2 ^ x <= 2 * Zpos q)%Z -> (Zpos q < 2 ^ x)%Z -> (0 <= x)%Z ->
  Zpos (digits2_pos q) = x.
Proof.
  intros H1 H2 Hx. destruct (digits2_pos_bounds q) as [B1 B2].
  destruct (Z.lt_trichotomy (Zpos (digits2_pos q)) x) as [Hlt | [Heq | Hgt]];
    [| exact Heq |].
  - assert (2 ^ (Zpos (digits2_pos q) + 1) <= 2 ^ x)%Z
      by (apply Z.pow_le_mono_r; lia).
    rewrite Z.pow_add_r in * by lia. lia.
  - assert (2 ^ (x + 1) <= 2 ^ Zpos (digits2_pos q))%Z
      by (apply Z.pow_le_mono_r; lia).
    rewrite Z.pow_add_r in * by lia. lia.
Qed.

Lemma iter_shr_1_exact (t : positive) :
  forall m : positive,
    iter_pos shr_1 t {| shr_m := Zpos (m * 2 ^ t); shr_r := false; shr_s := false |}
    = {| shr_m := Zpos m; shr_r := false; shr_s := false |}.
Proof.
  assert (Hdouble : forall (t' m : positive),
             (m * 2 ^ t'~0 = (m * 2 ^ t') * 2 ^ t')%positive).
  { intros t' m. apply Pos2Z.inj.
    rewrite !Pos2Z.inj_mul, !Pos2Z.inj_pow, Pos2Z.inj_xO, <- Z.mul_assoc.
    f_equal. rewrite <- Z.pow_add_r by lia. f_equal. lia. }
  induction t as [t' IH | t' IH |]; intros m.
  - cbn [iter_pos].
    assert (E : (m * 2 ^ t'~1 = ((m * 2 ^ t') * 2 ^ t')~0)%positive).
    { apply Pos2Z.inj.
      rewrite Pos2Z.inj_xO, !Pos2Z.inj_mul, !Pos2Z.inj_pow, Pos2Z.inj_xI.
      replace (2 * Zpos t' + 1)%Z with (Zpos t' + Zpos t' + 1)%Z by lia.
      rewrite !Z.pow_add_r by lia. lia. }
    rewrite E. cbn [shr_1 orb]. now rewrite !IH.
  - cbn [iter_pos]. rewrite Hdouble. now rewrite !IH.
  - cbn [iter_pos]. rewrite Pos.pow_1_r, Pos.mul_comm. reflexivity.
Qed.

Lemma binary_round_aux_canonical (s : bool) (m : positive) (e : Z) :
  digits2_pos m = 53%positive ->
  (-1074 <= e <= 971)%Z ->
  binary_round_aux prec emax s (Zpos m) e loc_Exact = S754_finite s m e.
Proof.
  intros Hm He. unfold binary_round_aux, shr_fexp.
  cbn [Zdigits2 shr_record_of_loc]. rewrite Hm.
  assert (Hf : (fexp prec emax (53 + e) - e = 0)%Z).
  { unfold fexp, emin, prec, emax. lia. }
  rewrite Hf.
  cbn [shr shr_m loc_of_shr_record round_nearest_even Zdigits2 shr_record_of_loc].
  rewrite Hm, Hf. cbn [shr shr_m]. unfold prec, emax.
  destruct (Z.leb_spec e (1024 - 53)); [reflexivity | lia].
Qed.

(** Rounding the integer [p], given as the mantissa [q] over the exponent
    [-n], is exact, and gives the same number whatever [n]. *)
Lemma binary_round_exact (s : bool) (p q : positive) (n : Z) :
  (Zpos p < 2 ^ 53)%Z ->
  (0 <= n)%Z ->
  Zpos q = (Zpos p * 2 ^ n)%Z ->
  exists m,
    binary_round prec emax s q (- n) = S754_finite s m (Zpos (digits2_pos p) - 53)
    /\ Zpos m = (Zpos p * 2 ^ (53 - Zpos (digits2_pos p)))%Z.
Proof.
  intros Hp Hn Hq. pose proof (digits2_pos_small p Hp) as Hd.
  destruct (digits2_pos_bounds p) as [B1 B2].
  set (d := digits2_pos p) in *.
  assert (Hpow : (0 < 2 ^ n)%Z) by (apply Z.pow_pos_nonneg; lia).
  assert (Hdq : Zpos (digits2_pos q) = (Zpos d + n)%Z).
  { apply digits2_pos_unique; try lia; rewrite Z.pow_add_r, Hq by lia; nia. }
  (* the canonical mantissa *)
  assert (Hm : exists m, Zpos m = (Zpos p * 2 ^ (53 - Zpos d))%Z
                         /\ digits2_pos m = 53%positive).
  { assert (Hpos : (0 < Zpos p * 2 ^ (53 - Zpos d))%Z).
    { apply Z.mul_pos_pos; [lia |]. apply Z.pow_pos_nonneg; lia. }
    destruct (Zpos p * 2 ^ (53 - Zpos d))%Z as [| m | m] eqn:Em; try lia.
    exists m. split; [reflexivity |]. apply Pos2Z.inj.
    apply digits2_pos_unique; try lia.
    - rewrite <- Em. replace 53%Z with (Zpos d + (53 - Zpos d))%Z at 1 by lia.
      rewrite Z.pow_add_r by lia.
      assert (0 < 2 ^ (53 - Zpos d))%Z by (apply Z.pow_pos_nonneg; lia). nia.
    - rewrite <- Em. replace 53%Z with (Zpos d + (53 - Zpos d))%Z at 2 by lia.
      rewrite Z.pow_add_r by lia.
      assert (0 < 2 ^ (53 - Zpos d))%Z by (apply Z.pow_pos_nonneg; lia). nia. }
  destruct Hm as [m [Hmval Hmdig]].
  exists m. split; [| exact Hmval].
  unfold binary_round.
  assert (Hfexp : fexp prec emax (Zpos (digits2_pos q) + - n) = (Zpos d - 53)%Z).
  { rewrite Hdq. unfold fexp, emin, prec, emax. lia. }
  rewrite Hfexp. unfold shl_align.
  destruct (Zpos d - 53 - - n)%Z as [| t | t] eqn:Ht.
  - (* the mantissa is canonical as it is *)
    assert (Hqm : q = m).
    { apply Pos2Z.inj. rewrite Hq, Hmval. f_equal. f_equal. lia. }
    subst q. replace (- n)%Z with (Zpos d - 53)%Z by lia.
    apply binary_round_aux_canonical; [exact Hmdig | lia].
  - (* too many bits: the ones shifted out are zero *)
    unfold binary_round_aux, shr_fexp. cbn [Zdigits2 shr_record_of_loc].
    rewrite Hfexp. rewrite Ht. cbn [shr].
    assert (Hqm : q = (m * 2 ^ t)%positive).
    { apply Pos2Z.inj. rewrite Pos2Z.inj_mul, Pos2Z.inj_pow, Hq, Hmval.
      rewrite <- Z.mul_assoc, <- Z.pow_add_r by lia. f_equal. f_equal. lia. }
    rewrite Hqm, iter_shr_1_exact.
    cbn [shr_m loc_of_shr_record round_nearest_even Zdigits2 shr_record_of_loc].
    rewrite Hmdig.
    assert (Hf : (fexp prec emax (53 + (- n + Zpos t)) - (- n + Zpos t) = 0)%Z).
    { unfold fexp, emin, prec, emax. lia. }
    rewrite Hf. cbn [shr shr_m]. unfold prec, emax.
    replace (- n + Zpos t)%Z with (Zpos d - 53)%Z by lia.
    destruct (Z.leb_spec (Zpos d - 53) (1024 - 53)); [reflexivity | lia].
  - (* too few bits: shift left *)
    destruct (iter_xO_spec q t) as [Hv Hdig].
    assert (Hqm : Pos.iter xO q t = m).
    { apply Pos2Z.inj. rewrite Hv, Hq, Hmval.
      rewrite <- Z.mul_assoc, <- Z.pow_add_r by lia. f_equal. f_equal. lia. }
    rewrite Hqm. apply binary_round_aux_canonical; [exact Hmdig | lia].
Qed.

Lemma shl_align_value (m : positive) (e ez : Z) :
  (ez <= e)%Z ->
  Zpos (fst (shl_align m e ez)) = (Zpos m * 2 ^ (e - ez))%Z.
Proof.
  intros Hle. unfold shl_align.
  destruct (ez - e)%Z as [| t | t] eqn:Ht; cbn [fst].
  - replace (e - ez)%Z with 0%Z by lia. lia.
  - lia.
  - destruct (iter_xO_spec m t) as [Hv _]. rewrite Hv. f_equal. f_equal. lia.
Qed.

(** A positive integer below 2^53 as a number: its mantissa and exponent
    give back the integer. *)
Lemma num_pos_value (p : positive) :
  (Zpos p < 2 ^ 53)%Z ->
  exists m e,
    num (Zpos p) = S754_finite false m e
    /\ (-52 <= e <= 0)%Z
    /\ Zpos m = (Zpos p * 2 ^ (- e))%Z.
Proof.
  intros Hp. destruct (num_pos_spec p Hp) as [m [Hnum Hm]].
  pose proof (digits2_pos_small p Hp).
  exists m, (Zpos (digits2_pos p) - 53)%Z. split; [exact Hnum |].
  split; [lia |]. rewrite Hm. f_equal. f_equal. lia.
Qed.

Lemma binary_round_is_num (p q : positive) (n : Z) :
  (Zpos p < 2 ^ 53)%Z -> (0 <= n)%Z -> Zpos q = (Zpos p * 2 ^ n)%Z ->
  binary_round prec emax false q (- n) = num (Zpos p).
Proof.
  intros Hp Hn Hq.
  destruct (binary_round_exact false p q n Hp Hn Hq) as [m [Hr Hm]].
  destruct (num_pos_spec p Hp) as [m' [Hnum Hm']].
  rewrite Hr, Hnum. f_equal. apply Pos2Z.inj. now rewrite Hm, Hm'.
Qed.

Lemma add_num (b j : nat) :
  (Z.of_nat (b + j) < 2 ^ 53)%Z ->
  add (num (Z.of_nat b)) (num (Z.of_nat j)) = num (Z.of_nat (b + j)).
Proof.
  intros Hsum.
  destruct (Z.of_nat b) as [| pb | pb] eqn:Eb; [| | lia].
  { assert (b = 0) as -> by lia. cbn [Nat.add].
    assert (Hj : (Z.of_nat j < 2 ^ 53)%Z) by lia.
    destruct (num_shape j Hj) as [-> | [m [e ->]]]; reflexivity. }
  destruct (Z.of_nat j) as [| pj | pj] eqn:Ej; [| | lia].
  { assert (j = 0) as -> by lia. rewrite Nat.add_0_r, Eb.
    assert (Hb : (Zpos pb < 2 ^ 53)%Z) by lia.
    destruct (num_pos_value pb Hb) as [m [e [-> _]]]. reflexivity. }
  assert (Hb : (Zpos pb < 2 ^ 53)%Z) by lia.
  assert (Hj : (Zpos pj < 2 ^ 53)%Z) by lia.
  destruct (num_pos_value pb Hb) as [mb [eb [-> [Heb Hmb]]]].
  destruct (num_pos_value pj Hj) as [mj [ej [-> [Hej Hmj]]]].
  unfold add, SFadd. cbn [cond_Zopp].
  set (ez := Z.min eb ej).
  rewrite (shl_align_value mb eb ez), (shl_align_value mj ej ez) by lia.
  rewrite Hmb, Hmj, <- !Z.mul_assoc, <- !Z.pow_add_r by lia.
  replace (- eb + (eb - ez))%Z with (- ez)%Z by lia.
  replace (- ej + (ej - ez))%Z with (- ez)%Z by lia.
  rewrite <- Z.mul_add_distr_r.
  replace (Zpos pb + Zpos pj)%Z with (Z.of_nat (b + j)) by lia.
  destruct (Z.of_nat (b + j)) as [| ps | ps] eqn:Es; [lia | | lia].
  assert (Hpow : (0 < 2 ^ (- ez))%Z) by (apply Z.pow_pos_nonneg; lia).
  destruct (Zpos ps * 2 ^ (- ez))%Z as [| q | q] eqn:Eq; [lia | | lia].
  unfold binary_normalize.
  replace ez with (- (- ez))%Z at 1 by lia.
  apply binary_round_is_num; [exact Hsum | lia | now rewrite Eq].
Qed.

Lemma Math_max_zero_sub_num (a k : nat) :
  (Z.of_nat a < 2 ^ 53)%Z ->
  (Z.of_nat k < 2 ^ 53)%Z ->
  Math_max [num 0; sub (num (Z.of_nat a)) (num (Z.of_nat k))] = num (Z.of_nat (a - k)).
Proof.
  intros Ha Hk.
  destruct (Z.of_nat k) as [| pk | pk] eqn:Ek; [| | lia].
  { assert (k = 0) as -> by lia. rewrite Nat.sub_0_r.
    destruct (sub_add_num_zero a Ha) as [-> _]. now apply Math_max_zero_num. }
  destruct (num_pos_value pk Hk) as [mk [ek [Hnk [Hek Hmk]]]]. rewrite Hnk.
  destruct (Z.of_nat a) as [| pa | pa] eqn:Ea; [| | lia].
  { assert (a = 0) as -> by lia. reflexivity. }
  destruct (num_pos_value pa Ha) as [ma [ea [-> [Hea Hma]]]].
  unfold sub, SFsub. cbn [cond_Zopp].
  set (ez := Z.min ea ek).
  rewrite (shl_align_value ma ea ez), (shl_align_value mk ek ez) by lia.
  rewrite Hma, Hmk, <- !Z.mul_assoc, <- !Z.pow_add_r by lia.
  replace (- ea + (ea - ez))%Z with (- ez)%Z by lia.
  replace (- ek + (ek - ez))%Z with (- ez)%Z by lia.
  rewrite <- Z.mul_sub_distr_r.
  assert (Hpow : (0 < 2 ^ (- ez))%Z) by (apply Z.pow_pos_nonneg; lia).
  destruct (Z.lt_trichotomy (Zpos pa) (Zpos pk)) as [Hlt | [Heq | Hgt]].
  - (* a < k: the difference is negative *)
    replace (a - k) with 0 by lia.
    destruct (Zpos pa - Zpos pk)%Z as [| pd | pd] eqn:Ed; [lia | lia |].
    assert (Hpd : (Zpos pd < 2 ^ 53)%Z) by lia.
    destruct (Zneg pd * 2 ^ (- ez))%Z as [| q | q] eqn:Eq; [lia | lia |].
    assert (Hq : Zpos q = (Zpos pd * 2 ^ (- ez))%Z) by lia.
    unfold binary_normalize.
    replace ez with (- (- ez))%Z at 1 by lia.
    destruct (binary_round_exact true pd q (- ez) Hpd ltac:(lia) Hq) as [m [-> _]].
    reflexivity.
  - replace (a - k) with 0 by lia.
    replace (Zpos pa - Zpos pk)%Z with 0%Z by lia. reflexivity.
  - destruct (Zpos pa - Zpos pk)%Z as [| pd | pd] eqn:Ed; [lia | | lia].
    assert (Hpd : (Zpos pd < 2 ^ 53)%Z) by lia.
    destruct (Zpos pd * 2 ^ (- ez))%Z as [| q | q] eqn:Eq; [lia | | lia].
    unfold binary_normalize.
    replace ez with (- (- ez))%Z at 1 by lia.
    rewrite (binary_round_is_num pd q (- ez) Hpd ltac:(lia) ltac:(now rewrite Eq)).
    replace (Zpos pd) with (Z.of_nat (a - k)) by lia.
    apply Math_max_zero_num. lia.
Qed.

(** *** Integers of either sign as numbers *)

Lemma num_neg_spec (p : positive) :
  (Zpos p < 2 ^ 53)%Z ->
  exists m,
    num (Zneg p) = S754_finite true m (Zpos (digits2_pos p) - 53)
    /\ Zpos m = (Zpos p * 2 ^ (53 - Zpos (digits2_pos p)))%Z.
Proof.
  intros Hp.
  destruct (binary_round_exact true p p 0 Hp (Z.le_refl 0)) as [m [Hr Hm]]; [lia |].
  exists m. split; [exact Hr | exact Hm].
Qed.

(** A non-zero integer below 2^53 in size as a number: sign, mantissa and
    exponent give back the integer. *)
Lemma num_value (z : Z) :
  (Z.abs z < 2 ^ 53)%Z -> z <> 0%Z ->
  exists m e,
    num z = S754_finite (z <? 0)%Z m e
    /\ (-52 <= e <= 0)%Z
    /\ cond_Zopp (z <? 0)%Z (Zpos m) = (z * 2 ^ (- e))%Z.
Proof.
  intros Hz Hne. destruct z as [| p | p]; [contradiction | |].
  - assert (Hp : (Zpos p < 2 ^ 53)%Z) by lia.
    destruct (num_pos_spec p Hp) as [m [Hnum Hm]].
    pose proof (digits2_pos_small p Hp).
    exists m, (Zpos (digits2_pos p) - 53)%Z. split; [exact Hnum |].
    split; [lia |]. cbn [Z.ltb Z.compare cond_Zopp]. rewrite Hm. f_equal. f_equal. lia.
  - assert (Hp : (Zpos p < 2 ^ 53)%Z) by lia.
    destruct (num_neg_spec p Hp) as [m [Hnum Hm]].
    pose proof (digits2_pos_small p Hp).
    exists m, (Zpos (digits2_pos p) - 53)%Z. split; [exact Hnum |].
    split; [lia |]. cbn [Z.ltb Z.compare cond_Zopp].
    replace (- (Zpos (digits2_pos p) - 53))%Z with (53 - Zpos (digits2_pos p))%Z by lia.
    rewrite Hm. lia.
Qed.

Lemma num_opp (z : Z) :
  (Z.abs z < 2 ^ 53)%Z -> z <> 0%Z -> SFopp (num z) = num (- z).
Proof.
  intros Hz Hne. destruct z as [| p | p]; [contradiction | |];
    assert (Hp : (Zpos p < 2 ^ 53)%Z) by lia;
    destruct (num_pos_spec p Hp) as [m [Hpos Hm]];
    destruct (num_neg_spec p Hp) as [m' [Hneg Hm']];
    assert (m' = m) as -> by (apply Pos2Z.inj; now rewrite Hm, Hm');
    cbn [Z.opp]; rewrite Hpos, Hneg; reflexivity.
Qed.

Lemma ToIntegerOrInfinity_numZ (z : Z) :
  (Z.abs z < 2 ^ 53)%Z -> ToIntegerOrInfinity (num z) = Integer z.
Proof.
  intros Hz. destruct (Z.eq_dec z 0) as [-> | Hne]; [reflexivity |].
  destruct (num_value z Hz Hne) as [m [e [Hnum [He Hm]]]].
  rewrite Hnum. cbn [ToIntegerOrInfinity]. f_equal.
  assert (Hshift : Z.shiftl (Zpos m) e = (Zpos m / 2 ^ (- e))%Z).
  { rewrite <- Z.shiftr_div_pow2, <- Z.shiftl_opp_r by lia. f_equal. lia. }
  rewrite Hshift.
  assert (Hpow : (2 ^ (- e) <> 0)%Z) by (apply Z.pow_nonzero; lia).
  destruct (z <? 0)%Z; cbn [cond_Zopp] in Hm.
  - replace (Zpos m) with (- z * 2 ^ (- e))%Z by lia.
    rewrite Z.div_mul by exact Hpow. lia.
  - rewrite Hm. now apply Z.div_mul.
Qed.

(** Rounding the integer [z], given as [z * 2^n] over the exponent [-n],
    gives [num z]. *)
Lemma normalize_exact (z n : Z) :
  (Z.abs z < 2 ^ 53)%Z -> (0 <= n)%Z ->
  binary_normalize prec emax (z * 2 ^ n) (- n) false = num z.
Proof.
  intros Hz Hn.
  assert (Hpow : (0 < 2 ^ n)%Z) by (apply Z.pow_pos_nonneg; lia).
  destruct z as [| p | p].
  - reflexivity.
  - assert (Hp : (Zpos p < 2 ^ 53)%Z) by lia.
    destruct (Zpos p * 2 ^ n)%Z as [| q | q] eqn:Eq; [lia | | lia].
    cbn [binary_normalize]. apply binary_round_is_num; auto.
  - assert (Hp : (Zpos p < 2 ^ 53)%Z) by lia.
    destruct (Zneg p * 2 ^ n)%Z as [| q | q] eqn:Eq; [lia | lia |].
    cbn [binary_normalize].
    assert (Hq : Zpos q = (Zpos p * 2 ^ n)%Z) by lia.
    destruct (binary_round_exact true p q n Hp Hn Hq) as [m [Hr Hm]].
    destruct (num_neg_spec p Hp) as [m' [Hneg Hm']].
    rewrite Hr, Hneg. f_equal. apply Pos2Z.inj. now rewrite Hm, Hm'.
Qed.

Lemma aligned_value (s : bool) (m : positive) (e ez z : Z) :
  (ez <= e <= 0)%Z ->
  cond_Zopp s (Zpos m) = (z * 2 ^ (- e))%Z ->
  cond_Zopp s (Zpos (fst (shl_align m e ez))) = (z * 2 ^ (- ez))%Z.
Proof.
  intros He Hm.
  assert (Hc : cond_Zopp s (Zpos (fst (shl_align m e ez)))
               = (cond_Zopp s (Zpos m) * 2 ^ (e - ez))%Z).
  { rewrite shl_align_value by lia. destruct s; cbn [cond_Zopp]; lia. }
  rewrite Hc, Hm, <- Z.mul_assoc, <- Z.pow_add_r by lia.
  f_equal. f_equal. lia.
Qed.

Lemma add_numZ (x y : Z) :
  (Z.abs x < 2 ^ 53)%Z -> (Z.abs y < 2 ^ 53)%Z -> (Z.abs (x + y) < 2 ^ 53)%Z ->
  add (num x) (num y) = num (x + y).
Proof.
  intros Hx Hy Hxy.
  destruct (Z.eq_dec y 0) as [-> | Hy0].
  { rewrite Z.add_0_r. destruct (Z.eq_dec x 0) as [-> | Hx0]; [reflexivity |].
    destruct (num_value x Hx Hx0) as [m [e [-> _]]]. reflexivity. }
  destruct (num_value y Hy Hy0) as [my [ey [Hny [Hey Hmy]]]].
  destruct (Z.eq_dec x 0) as [-> | Hx0].
  { rewrite Z.add_0_l, Hny. reflexivity. }
  destruct (num_value x Hx Hx0) as [mx [ex [Hnx [Hex Hmx]]]].
  rewrite Hnx, Hny. unfold add, SFadd.
  set (ez := Z.min ex ey).
  rewrite (aligned_value _ mx ex ez x), (aligned_value _ my ey ez y) by (auto; lia).
  rewrite <- Z.mul_add_distr_r.
  replace ez with (- (- ez))%Z at 2 by lia.
  apply normalize_exact; lia.
Qed.

Lemma sub_numZ (x y : Z) :
  (Z.abs x < 2 ^ 53)%Z -> (Z.abs y < 2 ^ 53)%Z -> (Z.abs (x - y) < 2 ^ 53)%Z ->
  sub (num x) (num y) = num (x - y).
Proof.
  intros Hx Hy Hxy.
  destruct (Z.eq_dec y 0) as [-> | Hy0].
  { rewrite Z.sub_0_r. destruct (Z.eq_dec x 0) as [-> | Hx0]; [reflexivity |].
    destruct (num_value x Hx Hx0) as [m [e [-> _]]]. reflexivity. }
  destruct (num_value y Hy Hy0) as [my [ey [Hny [Hey Hmy]]]].
  destruct (Z.eq_dec x 0) as [-> | Hx0].
  { rewrite Z.sub_0_l, <- (num_opp y Hy Hy0), Hny. reflexivity. }
  destruct (num_value x Hx Hx0) as [mx [ex [Hnx [Hex Hmx]]]].
  rewrite Hnx, Hny. unfold sub, SFsub.
  set (ez := Z.min ex ey).
  rewrite (aligned_value _ mx ex ez x), (aligned_value _ my ey ez y) by (auto; lia).
  rewrite <- Z.mul_sub_distr_r.
  replace ez with (- (- ez))%Z at 2 by lia.
  apply normalize_exact; lia.
Qed.

Lemma Math_max_zero_numZ (z : Z) :
  (Z.abs z < 2 ^ 53)%Z ->
  Math_max [num 0; num z] = num (Z.max 0 z).
Proof.
  intros Hz. destruct (Z.eq_dec z 0) as [-> | Hne]; [reflexivity |].
  destruct (num_value z Hz Hne) as [m [e [Hnum _]]].
  destruct (Z.ltb_spec z 0).
  - rewrite Z.max_l by lia. rewrite Hnum. reflexivity.
  - rewrite Z.max_r by lia. rewrite Hnum. reflexivity.
Qed.

Lemma Math_min_numZ (len : nat) (h : Z) :
  (Z.of_nat len < 2 ^ 53)%Z -> (Z.abs h < 2 ^ 53)%Z ->
  Math_min [num (Z.of_nat len); num h] = num (Z.min (Z.of_nat len) h).
Proof.
  intros Hlen Hh. destruct (Z.ltb_spec h 0) as [Hneg | Hpos].
  - rewrite Z.min_r by lia.
    destruct (num_value h Hh ltac:(lia)) as [m [e [Hnum _]]].
    rewrite Hnum. destruct (Z.ltb_spec h 0); [| lia].
    destruct (num_shape len Hlen) as [-> | [ml [el ->]]]; reflexivity.
  - replace h with (Z.of_nat (Z.to_nat h)) by lia.
    rewrite (Math_min_num len (Z.to_nat h)) by lia. f_equal. lia.
Qed.

Lemma JsOr_numZ (z : Z) :
  (Z.abs z < 2 ^ 53)%Z ->
  JsOr (JsNum (num z)) (JsNum (num 0)) = JsNum (num z).
Proof.
  intros Hz. destruct (Z.eq_dec z 0) as [-> | Hne]; [reflexivity |].
  destruct (num_value z Hz Hne) as [m [e [-> _]]]. reflexivity.
Qed.

(** [getText] when the range is a pair of numbers and [count || 0] is a
    number for both counts. *)
Lemma getText_of_padding
    (StringToNumber : JsString -> number)
    (NumberToString : number -> JsString)
    (ObjectToPrimitive : JsValue -> Completion Primitive)
    (sc : SourceCode) (node beforeCount afterCount : JsValue)
    (start end_ before after : number) (rest : list JsValue) :
  ToBoolean node = true ->
  prop node "range" = JsArr (JsNum start :: JsNum end_ :: rest) ->
  JsOr beforeCount (JsNum (num 0)) = JsNum before ->
  JsOr afterCount (JsNum (num 0)) = JsNum after ->
  getText StringToNumber NumberToString ObjectToPrimitive sc node
    beforeCount afterCount
  = Normal (slice (text sc)
              (Math_max [num 0; sub start before])
              (Math_min [num (Z.of_nat (List.length (text sc))); add end_ after])).
Proof.
  intros Hnode Hrange Hb Ha. unfold getText. rewrite Hnode.
  rewrite (Get_defined node "range" (truthy_not_nullish node Hnode)), Hrange.
  cbn [bind ToBoolean destructurePair nth]. rewrite Hb, Ha. reflexivity.
Qed.

(** [slice] between two integers that [Math.max] and [Math.min] let
    through. *)
Lemma slice_of_integers (s : JsString) (lo h : Z) :
  (Z.of_nat (List.length s) < 2 ^ 53)%Z ->
  (Z.abs lo < 2 ^ 53)%Z -> (Z.abs h < 2 ^ 53)%Z ->
  let len := Z.of_nat (List.length s) in
  slice s (num (Z.max 0 lo)) (num (Z.min len h))
  = substring s (Z.to_nat (Z.min (Z.max 0 lo) len)) (Z.to_nat (sliceEnd len h)).
Proof.
  intros Hlen Hlo Hh len. unfold slice. cbv zeta. fold len.
  rewrite !ToIntegerOrInfinity_numZ by lia. cbn [relativeIndex].
  assert (Hfrom : (if (Z.max 0 lo <? 0)%Z then Z.max (len + Z.max 0 lo) 0
                   else Z.min (Z.max 0 lo) len) = Z.min (Z.max 0 lo) len).
  { destruct (Z.ltb_spec (Z.max 0 lo) 0); lia. }
  assert (Hto : (if (Z.min len h <? 0)%Z then Z.max (len + Z.min len h) 0
                 else Z.min (Z.min len h) len) = sliceEnd len h).
  { unfold sliceEnd.
    destruct (Z.ltb_spec (Z.min len h) 0); destruct (Z.ltb_spec h 0); lia. }
  rewrite Hfrom, Hto.
  destruct (Z.leb_spec (sliceEnd len h) (Z.min (Z.max 0 lo) len)) as [Hle | Hgt];
    [| reflexivity].
  unfold substring.
  replace (Z.to_nat (sliceEnd len h) - Z.to_nat (Z.min (Z.max 0 lo) len)) with 0
    by lia.
  reflexivity.
Qed.

(** X16: for a node whose range is a pair of integers [[a, b]] and with
    [beforeCount] and [afterCount] falsy (absent, 0, NaN, [null], ...),
    [getText] returns the text from [a], or 0 if [a] is negative, up to [b],
    or [b] code units before the end if [b] is negative, each bound kept
    within the text; so a range within the text gives exactly its [b - a]
    code units, and a range that starts at or past the end of the text gives
    the empty string. *)
Theorem getText_of_integer_range
    (StringToNumber : JsString -> number)
    (NumberToString : number -> JsString)
    (ObjectToPrimitive : JsValue -> Completion Primitive)
    (sc : SourceCode) (node beforeCount afterCount : JsValue)
    (a b : Z) (rest : list JsValue) :
  (Z.of_nat (List.length (text sc)) < 2 ^ 53)%Z ->
  (Z.abs a < 2 ^ 53)%Z ->
  (Z.abs b < 2 ^ 53)%Z ->
  ToBoolean node = true ->
  prop node "range" = JsArr (JsNum (num a) :: JsNum (num b) :: rest) ->
  ToBoolean beforeCount = false ->
  ToBoolean afterCount = false ->
  let len := Z.of_nat (List.length (text sc)) in
  let result :=
    getText StringToNumber NumberToString ObjectToPrimitive sc node
      beforeCount afterCount in
  result = Normal (substring (text sc)
                     (Z.to_nat (Z.min (Z.max 0 a) len))
                     (Z.to_nat (sliceEnd len b)))
  /\ ((0 <= a <= b)%Z -> (b <= len)%Z ->
      exists s, result = Normal s
                /\ s = substring (text sc) (Z.to_nat a) (Z.to_nat b)
                /\ Z.of_nat (List.length s) = (b - a)%Z)
  /\ ((len <= a)%Z -> result = Normal []).
Proof.
  intros Hlen Ha Hb Hnode Hrange Hbefore Hafter len result.
  assert (Hres : result = Normal (substring (text sc)
                                    (Z.to_nat (Z.min (Z.max 0 a) len))
                                    (Z.to_nat (sliceEnd len b)))).
  { subst result.
    rewrite (getText_of_padding _ _ _ sc node beforeCount afterCount
               (num a) (num b) (num 0) (num 0) rest Hnode Hrange)
      by (unfold JsOr; now rewrite ?Hbefore, ?Hafter).
    rewrite (sub_numZ a 0), (add_numZ b 0) by (rewrite ?Z.sub_0_r, ?Z.add_0_r; lia).
    rewrite Z.sub_0_r, Z.add_0_r, (Math_max_zero_numZ a Ha), (Math_min_numZ _ b Hlen Hb).
    now rewrite slice_of_integers. }
  split; [exact Hres |]. split.
  - intros Hab Hbl. eexists. split; [exact Hres |].
    unfold sliceEnd. destruct (Z.ltb_spec b 0); [lia |].
    rewrite Z.max_r, !Z.min_l by lia. split; [reflexivity |].
    unfold substring. rewrite length_firstn, length_skipn. fold len. lia.
  - intros Hla. rewrite Hres. f_equal. unfold substring, sliceEnd.
    destruct (Z.ltb_spec b 0);
      replace (Z.to_nat _ - Z.to_nat (Z.min (Z.max 0 a) len)) with 0 by lia;
      reflexivity.
Qed.

Lemma getText_of_integer_range_witness :
  getText Sample.noNumber Sample.noString Sample.noPrimitive Sample.digits
    (Sample.rangeNode 2 (-4)) JsUndefined (JsNum S754_nan)
  = Normal (str "2345").
Proof.
  destruct (getText_of_integer_range Sample.noNumber Sample.noString
              Sample.noPrimitive Sample.digits (Sample.rangeNode 2 (-4))
              JsUndefined (JsNum S754_nan) 2 (-4) [])
    as [H _];
    [reflexivity | reflexivity | reflexivity | reflexivity | reflexivity
     | reflexivity | reflexivity |].
  exact H.
Defined.

(** X19: with integer padding, of either sign, [getText(node, before,
    after)] for a node whose range is a pair of integers [[a, b]] returns
    the text from [a - before], or 0 if that is negative, up to
    [b + after], or that many code units before the end if it is negative,
    each bound kept within the text. *)
Theorem getText_with_padding
    (StringToNumber : JsString -> number)
    (NumberToString : number -> JsString)
    (ObjectToPrimitive : JsValue -> Completion Primitive)
    (sc : SourceCode) (node : JsValue) (a b before after : Z)
    (rest : list JsValue) :
  (Z.of_nat (List.length (text sc)) < 2 ^ 53)%Z ->
  (Z.abs a < 2 ^ 53)%Z ->
  (Z.abs before < 2 ^ 53)%Z ->
  (Z.abs (a - before) < 2 ^ 53)%Z ->
  (Z.abs b < 2 ^ 53)%Z ->
  (Z.abs after < 2 ^ 53)%Z ->
  (Z.abs (b + after) < 2 ^ 53)%Z ->
  ToBoolean node = true ->
  prop node "range" = JsArr (JsNum (num a) :: JsNum (num b) :: rest) ->
  let len := Z.of_nat (List.length (text sc)) in
  getText StringToNumber NumberToString ObjectToPrimitive sc node
    (JsNum (num before)) (JsNum (num after))
  = Normal (substring (text sc)
              (Z.to_nat (Z.min (Z.max 0 (a - before)) len))
              (Z.to_nat (sliceEnd len (b + after)))).
Proof.
  intros Hlen Ha Hbefore Hdiff Hb Hafter Hsum Hnode Hrange len.
  rewrite (getText_of_padding _ _ _ sc node _ _
             (num a) (num b) (num before) (num after) rest Hnode Hrange)
    by now apply JsOr_numZ.
  rewrite (sub_numZ a before Ha Hbefore Hdiff), (add_numZ b after Hb Hafter Hsum).
  rewrite (Math_max_zero_numZ _ Hdiff), (Math_min_numZ _ _ Hlen Hsum).
  now rewrite slice_of_integers.
Qed.

Lemma getText_with_padding_witness :
  getText Sample.noNumber Sample.noString Sample.noPrimitive Sample.digits
    (Sample.rangeNode 2 4) (JsNum (num (-3))) (JsNum (num (-5)))
  = Normal (str "5678")
  /\ getText Sample.noNumber Sample.noString Sample.noPrimitive Sample.digits
       (Sample.rangeNode 4 6) (JsNum (num 3)) (JsNum (num 100))
     = Normal (str "123456789").
Proof.
  split.
  - exact (getText_with_padding Sample.noNumber Sample.noString
             Sample.noPrimitive Sample.digits (Sample.rangeNode 2 4)
             2 4 (-3) (-5) [] eq_refl eq_refl eq_refl eq_refl eq_refl eq_refl
             eq_refl eq_refl eq_refl).
  - exact (getText_with_padding Sample.noNumber Sample.noString
             Sample.noPrimitive Sample.digits (Sample.rangeNode 4 6)
             4 6 3 100 [] eq_refl eq_refl eq_refl eq_refl eq_refl eq_refl
             eq_refl eq_refl eq_refl).
Defined.

(** X20: [defaultParserOptions] are the defaults that [parse] applies: when
    the language options give neither [year] nor [strictBigInt], the call is
    the one made with [defaultParserOptions] as the language options. *)
Theorem parse_with_defaultParserOptions
    (parseWithOptions : JsValue -> JsValue -> Completion JsValue)
    (file context : JsValue) :
  isNullish file = false ->
  isNullish context = false ->
  getOwn (optionsOf (prop context "languageOptions")) "year" = None ->
  getOwn (optionsOf (prop context "languageOptions")) "strictBigInt" = None ->
  parse parseWithOptions file context
  = parse parseWithOptions file (contextWith defaultParserOptions).
Proof.
  intros Hf Hc Hy Hs.
  rewrite !parse_calls_parser by (assumption || reflexivity).
  unfold passedOptions. cbv zeta.
  set (options := optionsOf (prop context "languageOptions")) in *.
  assert (Ey : prop options "year" = JsUndefined) by (unfold prop; now rewrite Hy).
  assert (Es : prop options "strictBigInt" = JsUndefined)
    by (unfold prop; now rewrite Hs).
  rewrite Ey, Es. reflexivity.
Qed.

Lemma parse_with_defaultParserOptions_witness :
  parse Sample.echoOptions Sample.file
    (contextWith (JsObj [("mode", JsStr (str "json5"))]))
  = parse Sample.echoOptions Sample.file (contextWith defaultParserOptions).
Proof.
  apply (parse_with_defaultParserOptions Sample.echoOptions); reflexivity.
Defined.
